(** * A welcome bot for group chats: template engine, config store, handlers

    Shallow embedding of [src/main.js].

    A JavaScript string is embedded as the byte string of its UTF-8
    encoding.  The regular expressions of the program only test a unit
    against [$] and against the ASCII letters of the placeholder names, and
    copy every other unit, so they act alike on the UTF-8 and on the UTF-16
    form of a text.

    The collaborators the program imports are section variables:
    - [markdownEscape], package markdown-escape, on strings.  The program
      also calls it on [undefined] (a member without username, a chat
      without title); the package calls [replace] on its argument, so that
      call throws a TypeError: see [escapeValue];
    - [marked], package marked with the renderer of the program;
    - [BOT_ID], the number before the colon of the API token. *)

From Stdlib Require Import ZArith Ascii.
From stdpp Require Import base option list gmap strings pretty.

Local Open Scope Z_scope.

(** ** Platform data *)

Module User.
Record t := mk {
  id : Z;
  is_bot : bool;
  first_name : string;
  username : option string
}.
End User.

Module Chat.
Record t := mk {
  id : Z;
  type : string;
  title : option string
}.
End Chat.

(** ** String.prototype.replace with a global regular expression *)

(** A regular expression tried at the current position of the input: the
    full match and the capture group handed to the callback. *)
Definition RegExp := string -> option (string * string).

(** [consumed] counts the units of the last match that are still ahead;
    the search for the next match resumes behind them (lastIndex).  No
    regular expression of the program matches the empty string. *)
Fixpoint replace_from (re : RegExp) (cb : string -> string -> option string)
    (consumed : nat) (s : string) : option string :=
  match s with
  | EmptyString => Some EmptyString
  | String c rest =>
      match consumed with
      | S k => replace_from re cb k rest
      | O =>
          match re s with
          | Some (full, group) =>
              out ← cb full group;
              tail ← replace_from re cb (pred (String.length full)) rest;
              Some (out +:+ tail)
          | None => String c <$> replace_from re cb 0 rest
          end
      end
  end.

(** The callback is called at every match, from left to right.  A call
    that returns gives [Some] text, a call that throws a TypeError gives
    [None]; when the callback throws, [replace] throws. *)
Definition replace (re : RegExp) (cb : string -> string -> option string)
    (s : string) : option string :=
  replace_from re cb 0 s.

(** [/([^$])(\$name)/]: one unit other than [$], then the token. *)
Definition placeholderRegExp (name : string) : RegExp := fun s =>
  match s with
  | String pre rest =>
      if negb (Ascii.eqb pre "$") && String.prefix ("$" +:+ name) rest
      then Some (String pre ("$" +:+ name), String pre EmptyString)
      else None
  | EmptyString => None
  end.

Definition placeholderNames : list string :=
  ["username"; "safeusername"; "firstname"; "groupname"].

(** [/\$\$(username|safeusername|firstname|groupname)/] *)
Definition escapedRegExp : RegExp := fun s =>
  match s with
  | String "$" (String "$" rest) =>
      match List.find (fun name => String.prefix name rest) placeholderNames with
      | Some name => Some ("$$" +:+ name, name)
      | None => None
      end
  | _ => None
  end.

(** Truthiness of a possibly undefined string. *)
Definition truthy_string (v : option string) : bool :=
  match v with
  | Some (String _ _) => true
  | _ => false
  end.

(** ** Built-in messages *)

Definition ERROR_MESSAGE_PREFIX : string := "⚠️ *Beep, boop, error!*".

Definition DEFAULT_MSG_TEMPLATE : string := "👋 *Selamat bergabung* $firstname ($safeusername) di $groupname yuk perkenalkan diri dan startup nya ! 😀
Kalau sobat memiliki permasalahan tentang startup, feel free to discuss with us 😀".

Definition INTRO_MSG : string := "👋 Hi!

Perkenalkan saya Sobat ABP bot, mulai saat ini saya akan menemani sobat di group $groupname".

(** The text before the example in the confirmation of a new template. *)
Definition NEW_MESSAGE_SET : string := "✔️ New welcome message set! Here's an example:

".

(** ** Message composers *)

Section Composers.
Variable markdownEscape : string -> string.

(** [markdownEscape(v)] for a value that may be [undefined]. *)
Definition escapeValue (v : option string) : option string :=
  match v with
  | Some s => Some (markdownEscape s)
  | None => None
  end.

Definition usernameStep (member : User.t) : string -> option string :=
  replace (placeholderRegExp "username")
    (fun full pre =>
       handle ← escapeValue (User.username member);
       Some (pre +:+ "@" +:+ handle)).

Definition firstnameStep (member : User.t) : string -> option string :=
  replace (placeholderRegExp "firstname")
    (fun full pre => Some (pre +:+ markdownEscape (User.first_name member))).

Definition groupnameStep (groupname : option string) : string -> option string :=
  replace (placeholderRegExp "groupname")
    (fun full pre =>
       name ← escapeValue groupname;
       Some (pre +:+ name)).

Definition safeusernameStep (member : User.t) : string -> option string :=
  replace (placeholderRegExp "safeusername")
    (fun full pre =>
       if truthy_string (User.username member)
       then handle ← escapeValue (User.username member);
            Some (pre +:+ "@" +:+ handle)
       else Some (pre +:+ "@" +:+ markdownEscape (User.first_name member))).

(** remove extra [$] in [$$username] / [$$firstname] / [$$groupname] *)
Definition unescapeStep : string -> option string :=
  replace escapedRegExp (fun full match1 => Some ("$" +:+ markdownEscape match1)).

Definition composeMessage (msg : string) (member : User.t) (groupname : option string)
    : option string :=
  s1 ← usernameStep member msg;
  s2 ← firstnameStep member s1;
  s3 ← groupnameStep groupname s2;
  s4 ← safeusernameStep member s3;
  unescapeStep s4.

Definition composeIntroMessage (owner : User.t) (groupName : option string)
    : option string :=
  composeMessage INTRO_MSG owner groupName.

Definition composeErrorMessage (msg : string) : string :=
  ERROR_MESSAGE_PREFIX +:+ " " +:+ msg.
End Composers.

(** ** String.prototype.trim *)

Definition bytes (l : list nat) : string :=
  fold_right (fun n s => String (ascii_of_nat n) s) EmptyString l.

(** The WhiteSpace and LineTerminator code points of ECMAScript, UTF-8:
    U+0009 to U+000D, U+0020, U+00A0, U+1680, U+2000 to U+200A, U+2028,
    U+2029, U+202F, U+205F, U+3000, U+FEFF. *)
Definition whiteSpace : list string :=
  map bytes
    [ [9]; [10]; [11]; [12]; [13]; [32]; [194; 160]; [225; 154; 128];
      [226; 128; 128]; [226; 128; 129]; [226; 128; 130]; [226; 128; 131];
      [226; 128; 132]; [226; 128; 133]; [226; 128; 134]; [226; 128; 135];
      [226; 128; 136]; [226; 128; 137]; [226; 128; 138];
      [226; 128; 168]; [226; 128; 169]; [226; 128; 175]; [226; 129; 159];
      [227; 128; 128]; [239; 187; 191] ]%nat.

(** Drops the leading units that spell members of [ws]; as in
    [replace_from], [consumed] counts the units of the member found last
    that are still ahead. *)
Fixpoint trimStart_from (ws : list string) (consumed : nat) (s : string) : string :=
  match s with
  | EmptyString => EmptyString
  | String c rest =>
      match consumed with
      | S k => trimStart_from ws k rest
      | O =>
          match List.find (fun w => String.prefix w s) ws with
          | Some w => trimStart_from ws (pred (String.length w)) rest
          | None => s
          end
      end
  end.

Definition trimStart (s : string) : string := trimStart_from whiteSpace 0 s.

Definition trimEnd (s : string) : string :=
  String.rev (trimStart_from (map String.rev whiteSpace) 0 (String.rev s)).

Definition trim (s : string) : string := trimEnd (trimStart s).

(** ** Values, storage and the asynchronous handlers' monad *)

(** The values the program keeps in storage and in its template table:
    member ids and template texts.  An absent entry reads as [undefined],
    here [None]. *)
Inductive jsval :=
  | JNum (n : Z)
  | JStr (s : string).

#[global] Instance jsval_eq_dec : EqDecision jsval.
Proof. solve_decision. Defined.

Definition truthy (v : jsval) : bool :=
  match v with
  | JNum n => negb (n =? 0)
  | JStr s => negb (String.eqb s "")
  end.

(** The value behind [if (v)]: [v] when it is defined and truthy. *)
Definition if_truthy (v : option jsval) : option jsval :=
  match v with
  | Some x => if truthy x then Some x else None
  | None => None
  end.

(** [a === b] *)
Definition strict_eq (a b : option jsval) : bool := bool_decide (a = b).

Record Message := {
  chat : Chat.t;
  from : User.t;
  new_chat_members : list User.t;
  left_chat_member : option User.t
}.

(** [storage]: the node-persist store; [msgTemplates]: the object of the
    same name, its property names being the chat ids; [sent]: the calls of
    [bot.sendMessage], oldest first, all with parse mode HTML. *)
Record World := {
  storage : gmap string jsval;
  msgTemplates : gmap Z jsval;
  sent : list (Z * string)
}.

(** A handler runs to a value or throws (a TypeError of the runtime); the
    store and the network do not fail. *)
Inductive Outcome (A : Type) :=
  | Done (a : A) (w : World)
  | Thrown (w : World).
Arguments Done {A} a w.
Arguments Thrown {A} w.

Definition Async (A : Type) := World -> Outcome A.

Definition ret {A} (a : A) : Async A := fun w => Done a w.

Definition bind {A B} (m : Async A) (k : A -> Async B) : Async B := fun w =>
  match m w with
  | Done a w' => k a w'
  | Thrown w' => Thrown w'
  end.

Definition throw {A} : Async A := fun w => Thrown w.

(** The value of an expression that may throw, inside a handler. *)
Definition evaluated {A} (o : option A) : Async A :=
  match o with
  | Some a => ret a
  | None => throw
  end.

Notation "'let*' x := m 'in' k" := (bind m (fun x => k))
  (at level 10, x name, m at level 100, k at level 200, only parsing).
Notation "m ;; k" := (bind m (fun _ => k))
  (at level 100, k at level 200, right associativity, only parsing).

Definition world_of {A} (o : Outcome A) : World :=
  match o with
  | Done _ w => w
  | Thrown w => w
  end.

Definition storage_getItem (key : string) : Async (option jsval) := fun w =>
  Done (storage w !! key) w.

Definition storage_setItem (key : string) (v : jsval) : Async unit := fun w =>
  Done tt {| storage := <[key := v]> (storage w);
             msgTemplates := msgTemplates w; sent := sent w |}.

Definition storage_removeItem (key : string) : Async unit := fun w =>
  Done tt {| storage := delete key (storage w);
             msgTemplates := msgTemplates w; sent := sent w |}.

(** The world after one more call of [bot.sendMessage]. *)
Definition delivered (w : World) (chatId : Z) (text : string) : World :=
  {| storage := storage w; msgTemplates := msgTemplates w;
     sent := sent w ++ [(chatId, text)] |}.

Definition bot_sendMessage (chatId : Z) (text : string) : Async unit := fun w =>
  Done tt (delivered w chatId text).

Definition msgTemplates_get (chatId : Z) : Async (option jsval) := fun w =>
  Done (msgTemplates w !! chatId) w.

Definition msgTemplates_set (chatId : Z) (v : jsval) : Async unit := fun w =>
  Done tt {| storage := storage w;
             msgTemplates := <[chatId := v]> (msgTemplates w); sent := sent w |}.

Definition msgTemplates_delete (chatId : Z) : Async unit := fun w =>
  Done tt {| storage := storage w;
             msgTemplates := delete chatId (msgTemplates w); sent := sent w |}.

(** ** Data: message template and owner id *)

Definition getMsgTemplateKey (chatId : Z) : string := pretty chatId +:+ "_msg_template".

Definition getMsgTemplate (chatId : Z) : Async jsval :=
  let* cached := msgTemplates_get chatId in
  match if_truthy cached with
  | Some v => ret v
  | None =>
      let* storedTemplate := storage_getItem (getMsgTemplateKey chatId) in
      match if_truthy storedTemplate with
      | Some t => msgTemplates_set chatId t ;; ret t
      | None =>
          msgTemplates_set chatId (JStr DEFAULT_MSG_TEMPLATE) ;;
          ret (JStr DEFAULT_MSG_TEMPLATE)
      end
  end.

Definition setMsgTemplate (chatId : Z) (msgTemplate : string) : Async unit :=
  storage_setItem (getMsgTemplateKey chatId) (JStr msgTemplate) ;;
  msgTemplates_set chatId (JStr msgTemplate).

Definition removeMsgTemplate (chatId : Z) : Async unit :=
  msgTemplates_delete chatId ;;
  storage_removeItem (pretty chatId +:+ "_msg_template").

Definition getOwnerIdKey (chatId : Z) : string := pretty chatId +:+ "_owner_id".

Definition getOwnerId (chatId : Z) : Async (option jsval) :=
  storage_getItem (getOwnerIdKey chatId).

Definition setOwnerId (chatId ownerId : Z) : Async unit :=
  storage_setItem (getOwnerIdKey chatId) (JNum ownerId).

Definition removeOwnerId (chatId : Z) : Async unit :=
  storage_removeItem (getOwnerIdKey chatId).

(** ** Handlers *)

Section Handlers.
Variable markdownEscape : string -> string.
Variable marked : string -> string.
Variable BOT_ID : Z.

Definition sendMessage (chatId : Z) (msg : string) : Async unit :=
  bot_sendMessage chatId (marked msg).

Definition sendErrorMessage (chatId : Z) (msg : string) : Async unit :=
  sendMessage chatId (composeErrorMessage msg).

Definition isGroup (msg : Message) : bool :=
  bool_decide (Chat.type (chat msg) ∈ ["group"; "supergroup"]).

Definition notGroupHandler (msg : Message) : Async unit :=
  sendMessage (Chat.id (chat msg)) "*Add me to a group first!*".

(** [composeMessage] on the value [getMsgTemplate] resolved to: a number
    has no [replace] method. *)
Definition composeMessage_of (template : jsval) (member : User.t)
    (groupName : option string) : Async string :=
  match template with
  | JStr msg => evaluated (composeMessage markdownEscape msg member groupName)
  | JNum _ => throw
  end.

Definition newMemberHandler (msg : Message) : Async unit :=
  let chatId := Chat.id (chat msg) in
  let groupName := Chat.title (chat msg) in
  match new_chat_members msg !! 0%nat with
  | None => throw
  | Some newMember =>
      if bool_decide (User.id newMember = BOT_ID) then
        let* intro := evaluated (composeIntroMessage markdownEscape (from msg) groupName) in
        sendMessage chatId intro ;;
        setOwnerId chatId (User.id (from msg))
      else if negb (User.is_bot newMember) then
        let* template := getMsgTemplate chatId in
        let* text := composeMessage_of template newMember groupName in
        sendMessage chatId text
      else ret tt
  end.

Definition memberLeftHandler (msg : Message) : Async unit :=
  let chatId := Chat.id (chat msg) in
  match left_chat_member msg with
  | None => throw
  | Some member =>
      if bool_decide (User.id member = BOT_ID) then
        removeOwnerId chatId ;;
        removeMsgTemplate chatId
      else ret tt
  end.

Definition changeWelcomeMessageEmptyHandler (msg : Message) : Async unit :=
  if negb (isGroup msg) then notGroupHandler msg
  else sendErrorMessage (Chat.id (chat msg)) "You can't set an empty message!".

(** [match1] is [match[1]], the text the command pattern captured. *)
Definition changeWelcomeMessageHandler (msg : Message) (match1 : string) : Async unit :=
  if negb (isGroup msg) then notGroupHandler msg
  else
    let chatId := Chat.id (chat msg) in
    let groupName := Chat.title (chat msg) in
    let owner := from msg in
    let* ownerId := getOwnerId chatId in
    if negb (strict_eq (Some (JNum (User.id owner))) ownerId) then
      sendErrorMessage chatId
        "Only the user who introduced me to this group can change the message!"
    else
      let msgTemplate := trim match1 in
      if (String.length msgTemplate =? 0)%nat then changeWelcomeMessageEmptyHandler msg
      else
        setMsgTemplate chatId msgTemplate ;;
        let* exampleMessage :=
          evaluated (composeMessage markdownEscape msgTemplate owner groupName) in
        sendMessage chatId (NEW_MESSAGE_SET +:+ exampleMessage).

(** ** Execution *)

(** The updates [run] subscribes the four handlers to: the two membership
    events, the change command with a text ([match1]) and the change
    command without one.  (The help and start commands only send a
    message.) *)
Inductive Update :=
  | NewChatMembers (msg : Message)
  | LeftChatMember (msg : Message)
  | ChangeWelcomeMessage (msg : Message) (match1 : string)
  | ChangeWelcomeMessageEmpty (msg : Message).

Definition dispatch (u : Update) : Async unit :=
  match u with
  | NewChatMembers msg => newMemberHandler msg
  | LeftChatMember msg => memberLeftHandler msg
  | ChangeWelcomeMessage msg match1 => changeWelcomeMessageHandler msg match1
  | ChangeWelcomeMessageEmpty msg => changeWelcomeMessageEmptyHandler msg
  end.

(** The world after a sequence of updates, each handled to its end; a
    handler that throws leaves the world as it was when it threw. *)
Definition runUpdates (us : list Update) (w : World) : World :=
  fold_left (fun w u => world_of (dispatch u w)) us w.
End Handlers.

(** ** Running the definitions *)

(** An instance of the escaping collaborator, for running the definitions
    on concrete inputs: a backslash before the characters of the markup
    and entities for the angle brackets. *)
Definition escapeUnit (c : ascii) : string :=
  match c with
  | ("*" | "#" | "/" | "(" | ")" | "[" | "]" | "_")%char =>
      String "\"%char (String c EmptyString)
  | "<"%char => "&lt;"
  | ">"%char => "&gt;"
  | _ => String c EmptyString
  end.

Fixpoint escapeText (s : string) : string :=
  match s with
  | EmptyString => EmptyString
  | String c rest => escapeUnit c +:+ escapeText rest
  end.

Definition sampleEscape (s : string) : string := escapeText s.

(** [String.prototype.includes] *)
Fixpoint includes (tok s : string) : bool :=
  String.prefix tok s ||
  match s with
  | EmptyString => false
  | String _ rest => includes tok rest
  end.

Definition bob : User.t := User.mk 3 false "Bob" (Some "bob").
Definition ana : User.t := User.mk 1 false "Ana" None.

(** An instance of the rendering collaborator: the text as it is. *)
Definition sampleMarked (s : string) : string := s.

Definition emptyWorld : World := {| storage := ∅; msgTemplates := ∅; sent := [] |}.

Definition hub : Chat.t := Chat.mk (-1001) "supergroup" (Some "Startup Hub").

(** Every entry of the template table is a non-empty text and is the
    value stored under the template key of its chat, or the default
    template when nothing is stored; every value stored under a template
    key is a non-empty text. *)
Definition store_consistent (w : World) : Prop :=
  (forall chatId v, msgTemplates w !! chatId = Some v ->
     (exists s, v = JStr s /\ s <> "")
     /\ (storage w !! getMsgTemplateKey chatId = Some v
         \/ (storage w !! getMsgTemplateKey chatId = None
             /\ v = JStr DEFAULT_MSG_TEMPLATE)))
  /\ (forall chatId v, storage w !! getMsgTemplateKey chatId = Some v ->
        exists s, v = JStr s /\ s <> "").

(** The template table and the template keys of the store hold texts. *)
Definition templates_typed (w : World) : Prop :=
  (forall chatId v, msgTemplates w !! chatId = Some v -> exists s, v = JStr s)
  /\ (forall chatId v,
        storage w !! getMsgTemplateKey chatId = Some v -> exists s, v = JStr s).

(** [ws.join("")] *)
Definition joined (ws : list string) : string := fold_right String.append EmptyString ws.

Definition theBot : User.t := User.mk 42 true "Sobat ABP" (Some "sobat_abp_bot").

Definition message (c : Chat.t) (u : User.t) (joining : list User.t)
    (leaving : option User.t) : Message :=
  {| chat := c; from := u; new_chat_members := joining; left_chat_member := leaving |}.

Definition event : User.t -> list User.t -> option User.t -> Message := message hub.

(** A member whose first name has the shape of a placeholder. *)
Definition dollar : User.t := User.mk 7 false "A$groupname" None.

(** Chat [hub] after Ana has added the bot to it. *)
Definition configuredWorld : World :=
  world_of (newMemberHandler sampleEscape sampleMarked 42 (event ana [theBot] None) emptyWorld).

(** The empty template written by [setMsgTemplate] for chat 1. *)
Definition emptyTemplateWorld : World := world_of (setMsgTemplate 1 "" emptyWorld).


(** ** Templates in pieces *)

(** A template cut into plain text, placeholders together with the unit in
    front of them, and escaped placeholders. *)
Inductive Piece :=
  | Text (a : string)
  | Placeholder (pre : ascii) (name : string)
  | Escaped (name : string).

Definition piece_text (p : Piece) : string :=
  match p with
  | Text a => a
  | Placeholder pre name => String pre ("$" +:+ name)
  | Escaped name => "$$" +:+ name
  end.

Definition template_of (ps : list Piece) : string := joined (map piece_text ps).

(** The text has no [$]; the unit in front of a placeholder is not [$];
    the names are the four placeholder names. *)
Definition piece_ok (p : Piece) : Prop :=
  match p with
  | Text a => includes "$" a = false
  | Placeholder pre name => pre <> "$"%char /\ name ∈ placeholderNames
  | Escaped name => name ∈ placeholderNames
  end.

(** A function that may throw, over a list, from left to right. *)
Fixpoint mapO {A B} (f : A -> option B) (l : list A) : option (list B) :=
  match l with
  | [] => Some []
  | x :: l => y ← f x; ys ← mapO f l; Some (y :: ys)
  end.

Section Pieces.
Variable markdownEscape : string -> string.
Variable member : User.t.
Variable groupname : option string.

(** What the callbacks of [composeMessage] put behind the unit [pre];
    [None] when the callback throws. *)
Definition placeholderValue (name : string) : option string :=
  if String.eqb name "username" then
    handle ← escapeValue markdownEscape (User.username member); Some ("@" +:+ handle)
  else if String.eqb name "firstname" then
    Some (markdownEscape (User.first_name member))
  else if String.eqb name "groupname" then
    escapeValue markdownEscape groupname
  else if truthy_string (User.username member) then
    handle ← escapeValue markdownEscape (User.username member); Some ("@" +:+ handle)
  else
    Some ("@" +:+ markdownEscape (User.first_name member)).

Definition piece_rendered (p : Piece) : option string :=
  match p with
  | Text a => Some a
  | Placeholder pre name => String pre <$> placeholderValue name
  | Escaped name => Some ("$" +:+ markdownEscape name)
  end.

(** The value of a placeholder piece, when it has one, has no [$]. *)
Definition piece_plain (p : Piece) : Prop :=
  match p with
  | Placeholder _ name =>
      forall v, placeholderValue name = Some v -> includes "$" v = false
  | _ => True
  end.

(** Every piece replaced on its own, in one pass; [None] when a piece
    has a placeholder without value. *)
Definition rendered (ps : list Piece) : option string :=
  joined <$> mapO piece_rendered ps.

(** A piece after the replacement step for the placeholder [k]. *)
Definition resolve (k : string) (p : Piece) : option Piece :=
  match p with
  | Placeholder pre name =>
      if String.eqb name k
      then v ← placeholderValue name; Some (Text (String pre v))
      else Some p
  | _ => Some p
  end.

(** A piece after the last step. *)
Definition unescaped (p : Piece) : string :=
  match p with
  | Escaped name => "$" +:+ markdownEscape name
  | _ => piece_text p
  end.
End Pieces.

(** [INTRO_MSG] up to its placeholder. *)
Definition INTRO_TEXT : string := "👋 Hi!

Perkenalkan saya Sobat ABP bot, mulai saat ini saya akan menemani sobat di group ".

(** The chat an update comes from. *)
Definition chat_of (u : Update) : Z :=
  match u with
  | NewChatMembers msg | LeftChatMember msg
  | ChangeWelcomeMessage msg _ | ChangeWelcomeMessageEmpty msg => Chat.id (chat msg)
  end.

(** The member an update composes a message for has a username (or the
    update composes none). *)
Definition update_named (u : Update) : Prop :=
  match u with
  | NewChatMembers msg =>
      forall m, new_chat_members msg !! 0%nat = Some m -> User.username m <> None
  | ChangeWelcomeMessage msg _ => User.username (from msg) <> None
  | _ => True
  end.

(** The platform fills in what the event is about: the members that
    joined, the member that left; and a group has a title. *)
Definition update_filled (u : Update) : Prop :=
  match u with
  | NewChatMembers msg => new_chat_members msg <> [] /\ Chat.title (chat msg) <> None
  | LeftChatMember msg => left_chat_member msg <> None
  | ChangeWelcomeMessage msg _ => isGroup msg = true -> Chat.title (chat msg) <> None
  | ChangeWelcomeMessageEmpty _ => True
  end.

(** [String.prototype.startsWith] and [String.prototype.endsWith] *)
Definition startsWith (s w : string) : bool := String.prefix w s.

Definition endsWith (s w : string) : bool := String.prefix (String.rev w) (String.rev s).

(** A private chat and a template in pieces, for running the definitions. *)
Definition privateChat : Chat.t := Chat.mk 3 "private" None.

Definition samplePieces : list Piece :=
  [Text "Hi"; Placeholder " " "firstname"; Text " ("; Placeholder "(" "safeusername";
   Text "), this is"; Placeholder " " "groupname"; Text ". Write ";
   Escaped "username"; Text " for your handle"; Placeholder " " "username"; Text "."].

Example render_default :
  composeMessage sampleEscape
    "Hi $username, $firstname ($safeusername) of $groupname: $$firstname" bob
    (Some "Startup_Hub")
  = Some "Hi @bob, Bob (@bob) of Startup\_Hub: $firstname".
Proof. reflexivity. Qed.

(** A member without username: [$safeusername] falls back on the first
    name, [$username] behind a unit makes the render throw. *)
Example render_no_handle :
  composeMessage sampleEscape "Hi $safeusername" ana (Some "G") = Some "Hi @Ana"
  /\ composeMessage sampleEscape "Hi $username" ana (Some "G") = None.
Proof. split; reflexivity. Qed.

(** Two placeholders in a row: the unit before the second one was used up
    by the first match. *)
Example render_adjacent :
  composeMessage sampleEscape "x$firstname$firstname" bob None = Some "xBob$firstname".
Proof. reflexivity. Qed.

(** * Properties of the template engine *)

Section ReplaceFacts.
Variable re : RegExp.
Variable cb : string -> string -> option string.

Lemma replace_from_consumed (a b : string) :
  replace_from re cb (String.length a) (a +:+ b) = replace re cb b.
Proof.
  induction a as [|c a IH]; simpl.
  - reflexivity.
  - exact IH.
Qed.

Lemma replace_match (c : ascii) (full' rest group : string) :
  re (String c (full' +:+ rest)) = Some (String c full', group) ->
  replace re cb (String c (full' +:+ rest))
  = out ← cb (String c full') group;
    tail ← replace re cb rest;
    Some (out +:+ tail).
Proof.
  intros Hre. unfold replace at 1. cbn [replace_from]. rewrite Hre.
  cbn [String.length pred]. now rewrite replace_from_consumed.
Qed.

Lemma replace_step (c : ascii) (rest : string) :
  re (String c rest) = None ->
  replace re cb (String c rest) = String c <$> replace re cb rest.
Proof. intros Hre. unfold replace. cbn [replace_from]. now rewrite Hre. Qed.

(** A callback that never throws makes a [replace] that never throws. *)
Lemma replace_returns (s : string) :
  (forall full group, is_Some (cb full group)) -> is_Some (replace re cb s).
Proof.
  intros Hcb. unfold replace. generalize 0%nat.
  induction s as [|c s IH]; intros n; cbn [replace_from]; [eauto|].
  destruct n as [|n]; [|apply IH].
  destruct (re (String c s)) as [[full group]|].
  - destruct (Hcb full group) as [out ->].
    destruct (IH (pred (String.length full))) as [tail ->]. cbn. eauto.
  - destruct (IH 0%nat) as [tail ->]. cbn. eauto.
Qed.
End ReplaceFacts.

Lemma includes_eq (tok s : string) :
  includes tok s =
  String.prefix tok s ||
  match s with
  | EmptyString => false
  | String _ rest => includes tok rest
  end.
Proof. destruct s; reflexivity. Qed.

Lemma prefix_includes (tok s : string) : String.prefix tok s = true -> includes tok s = true.
Proof. intros H. rewrite includes_eq, H. reflexivity. Qed.

Lemma includes_tail (tok : string) (c : ascii) (s : string) :
  includes tok (String c s) = false -> includes tok s = false.
Proof.
  rewrite (includes_eq tok (String c s)). intros H.
  apply orb_false_iff in H as [_ H]. exact H.
Qed.

Lemma includes_not_prefix (tok s : string) :
  includes tok s = false -> String.prefix tok s = false.
Proof.
  intros H. destruct (String.prefix tok s) eqn:E; [|reflexivity].
  apply prefix_includes in E. congruence.
Qed.

Lemma placeholderRegExp_free (name s : string) :
  includes ("$" +:+ name) s = false -> placeholderRegExp name s = None.
Proof.
  destruct s as [|c rest]; [reflexivity|]. intros H.
  apply includes_tail, includes_not_prefix in H.
  unfold placeholderRegExp. rewrite H, andb_false_r. reflexivity.
Qed.

Lemma escapedRegExp_free (s : string) :
  Forall (fun name => includes ("$" +:+ name) s = false) placeholderNames ->
  escapedRegExp s = None.
Proof.
  intros H. unfold escapedRegExp.
  destruct s as [|c1 [|c2 rest]]; try reflexivity.
  - destruct c1 as [[] [] [] [] [] [] [] []]; reflexivity.
  - destruct (Ascii.eqb_spec c1 "$"), (Ascii.eqb_spec c2 "$"); subst.
    + assert (Hp : forall name, name ∈ placeholderNames -> String.prefix name rest = false).
      { intros name Hin. rewrite Forall_forall in H. specialize (H name Hin).
        apply includes_tail, includes_not_prefix in H. exact H. }
      unfold placeholderNames in *. simpl.
      rewrite !Hp by set_solver. reflexivity.
    + destruct c2 as [[] [] [] [] [] [] [] []]; try reflexivity. congruence.
    + destruct c1 as [[] [] [] [] [] [] [] []]; try reflexivity. congruence.
    + destruct c1 as [[] [] [] [] [] [] [] []]; try reflexivity. congruence.
Qed.

Lemma replace_free (re : RegExp) (cb : string -> string -> option string)
    (P : string -> Prop) (s : string) :
  (forall c t, P (String c t) -> P t) ->
  (forall t, P t -> re t = None) ->
  P s -> replace re cb s = Some s.
Proof.
  intros Htail Hre. induction s as [|c rest IH]; intros HP.
  - reflexivity.
  - rewrite replace_step by auto. rewrite IH by eauto. reflexivity.
Qed.

Lemma replace_placeholder_free (name : string) cb (s : string) :
  includes ("$" +:+ name) s = false -> replace (placeholderRegExp name) cb s = Some s.
Proof.
  apply (replace_free _ _ (fun t => includes ("$" +:+ name) t = false)).
  - intros c t. apply includes_tail.
  - intros t. apply placeholderRegExp_free.
Qed.

Lemma replace_escaped_free cb (s : string) :
  Forall (fun name => includes ("$" +:+ name) s = false) placeholderNames ->
  replace escapedRegExp cb s = Some s.
Proof.
  apply (replace_free _ _
    (fun t => Forall (fun name => includes ("$" +:+ name) t = false) placeholderNames)).
  - intros c t H. eapply Forall_impl; [exact H|]. intros name. apply includes_tail.
  - intros t. apply escapedRegExp_free.
Qed.

Section TemplateEngine.
Variable markdownEscape : string -> string.

(** C1, at the start of the template.  The pattern of [composeMessage]
    asks for a unit other than [$] in front of the token, and a token that
    opens the template has none: the template ["$username"] is rendered
    unchanged for every member and group name. *)
Theorem C1_username_at_start_unchanged (m : User.t) (g : option string) :
  composeMessage markdownEscape "$username" m g = Some "$username".
Proof. reflexivity. Qed.


(** C4.  A template in which none of the four placeholder tokens occurs
    (the doubled-dollar forms contain the plain ones) is rendered to
    itself, and rendering that output again, for any member and group,
    gives the same text. *)
Theorem C4_placeholder_free_unchanged (T : string) (m m' : User.t) (g g' : option string) :
  Forall (fun name => includes ("$" +:+ name) T = false) placeholderNames ->
  composeMessage markdownEscape T m g = Some T
  /\ (out ← composeMessage markdownEscape T m g; composeMessage markdownEscape out m' g')
     = composeMessage markdownEscape T m g.
Proof.
  intros Hfree.
  assert (Hid : forall u h, composeMessage markdownEscape T u h = Some T).
  { intros u h. pose proof Hfree as H4.
    unfold placeholderNames in H4.
    apply Forall_cons in H4 as [Hu H4]. apply Forall_cons in H4 as [Hs H4].
    apply Forall_cons in H4 as [Hf H4]. apply Forall_cons in H4 as [Hg _].
    unfold composeMessage, usernameStep, firstnameStep, groupnameStep,
      safeusernameStep, unescapeStep.
    rewrite (replace_placeholder_free "username") by exact Hu. cbn [mbind option_bind].
    rewrite (replace_placeholder_free "firstname") by exact Hf. cbn [mbind option_bind].
    rewrite (replace_placeholder_free "groupname") by exact Hg. cbn [mbind option_bind].
    rewrite (replace_placeholder_free "safeusername") by exact Hs. cbn [mbind option_bind].
    apply replace_escaped_free, Hfree. }
  split; [apply Hid|]. rewrite !Hid. cbn [mbind option_bind]. apply Hid.
Qed.
End TemplateEngine.

Lemma append_assoc (a b c : string) : (a +:+ b) +:+ c = a +:+ (b +:+ c).
Proof.
  induction a as [|x a IH]; [reflexivity|].
  change (String x ((a +:+ b) +:+ c) = String x (a +:+ (b +:+ c))).
  now rewrite IH.
Qed.

Lemma prefix_append (a b : string) : String.prefix a (a +:+ b) = true.
Proof.
  induction a as [|x a IH].
  - destruct b; reflexivity.
  - change (String.prefix (String x a) (String x (a +:+ b)) = true). cbn.
    destruct (ascii_dec x x); [exact IH | congruence].
Qed.

Lemma append_nil_r (s : string) : s +:+ "" = s.
Proof.
  induction s as [|c s IH]; [reflexivity|].
  change (String c (s +:+ "") = String c s). now rewrite IH.
Qed.

Lemma prefix_cons (a b : ascii) (s1 s2 : string) :
  String.prefix (String a s1) (String b s2)
  = if ascii_dec a b then String.prefix s1 s2 else false.
Proof. reflexivity. Qed.

Lemma prefix_nil (s : string) : String.prefix "" s = true.
Proof. destruct s; reflexivity. Qed.

Lemma includes_behind (a c : ascii) (s : string) :
  c <> a ->
  includes (String a "") s = false -> includes (String a "") (String c s) = false.
Proof.
  intros Hc Hs. rewrite includes_eq, prefix_cons.
  destruct (ascii_dec a c); [congruence|]. exact Hs.
Qed.

Lemma includes_dollar (name s : string) :
  includes "$" s = false -> includes ("$" +:+ name) s = false.
Proof.
  induction s as [|c s IH]; intros H.
  - reflexivity.
  - rewrite includes_eq in H. apply orb_false_iff in H as [Hp Hs].
    rewrite includes_eq. rewrite (IH Hs), orb_false_r.
    change ("$" +:+ name) with (String "$" name).
    rewrite prefix_cons in Hp |- *. destruct (ascii_dec "$" c); [|reflexivity].
    rewrite prefix_nil in Hp. discriminate.
Qed.

Lemma placeholder_match (name : string) cb (c : ascii) (rest : string) :
  c <> "$"%char ->
  replace (placeholderRegExp name) cb (String c (("$" +:+ name) +:+ rest))
  = out ← cb (String c ("$" +:+ name)) (String c EmptyString);
    tail ← replace (placeholderRegExp name) cb rest;
    Some (out +:+ tail).
Proof.
  intros Hc. apply replace_match. unfold placeholderRegExp.
  rewrite prefix_append. destruct (Ascii.eqb_spec c "$"); [contradiction|reflexivity].
Qed.

Lemma escaped_match (name : string) cb (rest : string) :
  name ∈ placeholderNames ->
  replace escapedRegExp cb ("$$" +:+ name +:+ rest)
  = out ← cb ("$$" +:+ name) name;
    tail ← replace escapedRegExp cb rest;
    Some (out +:+ tail).
Proof.
  intros Hin.
  assert (Hre : escapedRegExp ("$$" +:+ name +:+ rest) = Some ("$$" +:+ name, name)).
  { unfold placeholderNames in Hin.
    repeat (apply elem_of_cons in Hin as [-> | Hin]);
      [| | | | apply elem_of_nil in Hin; contradiction];
      destruct rest; reflexivity. }
  change ("$$" +:+ name +:+ rest) with (String "$" (String "$" name +:+ rest)) in *.
  change ("$$" +:+ name) with (String "$" (String "$" name)) in *.
  now apply replace_match.
Qed.

(** * The template engine on templates in pieces *)

Lemma includes_cons_dollar (x : ascii) (a : string) :
  includes "$" (String x a) = false -> x <> "$"%char /\ includes "$" a = false.
Proof.
  intros H. rewrite includes_eq in H. apply orb_false_iff in H as [Hp Ha].
  split; [|exact Ha]. intros ->.
  rewrite prefix_cons, prefix_nil in Hp. destruct (ascii_dec "$" "$"); congruence.
Qed.

Lemma template_of_cons (p : Piece) (ps : list Piece) :
  template_of (p :: ps) = piece_text p +:+ template_of ps.
Proof. reflexivity. Qed.

Lemma name_cases (name : string) :
  name ∈ placeholderNames ->
  name = "username" \/ name = "safeusername" \/ name = "firstname" \/ name = "groupname".
Proof.
  unfold placeholderNames. intros H.
  repeat (apply elem_of_cons in H as [-> | H]); auto.
  apply elem_of_nil in H. contradiction.
Qed.

(** A well-formed template never begins with a placeholder token. *)
Lemma template_start (k : string) (ps : list Piece) :
  k ∈ placeholderNames ->
  Forall piece_ok ps ->
  String.prefix ("$" +:+ k) (template_of ps) = false.
Proof.
  intros Hk Hps. induction Hps as [|p ps Hp _ IH]; [reflexivity|].
  rewrite template_of_cons. destruct p as [a | pre name | name]; cbn [piece_text].
  - destruct a as [|x a]; [exact IH|].
    apply includes_cons_dollar in Hp as [Hx _].
    change (String.prefix (String "$" k) (String x (a +:+ template_of ps)) = false).
    rewrite prefix_cons. destruct (ascii_dec "$" x); [congruence|reflexivity].
  - destruct Hp as [Hpre _].
    change (String.prefix (String "$" k)
              (String pre (("$" +:+ name) +:+ template_of ps)) = false).
    rewrite prefix_cons. destruct (ascii_dec "$" pre); [congruence|reflexivity].
  - apply name_cases in Hk as [-> | [-> | [-> | ->]]]; reflexivity.
Qed.

Lemma placeholderRegExp_None (k : string) (c : ascii) (rest : string) :
  String.prefix ("$" +:+ k) rest = false -> placeholderRegExp k (String c rest) = None.
Proof.
  intros H. unfold placeholderRegExp. rewrite H, andb_false_r. reflexivity.
Qed.

Lemma escapedRegExp_None (c : ascii) (rest : string) :
  c <> "$"%char -> escapedRegExp (String c rest) = None.
Proof.
  intros Hc. destruct c as [[] [] [] [] [] [] [] []]; try reflexivity. congruence.
Qed.

Lemma fmap_String_append (c : ascii) (a : string) (o : option string) :
  String c <$> (String.append a <$> o) = String.append (String c a) <$> o.
Proof. now destruct o. Qed.

Ltac skip_units H :=
  repeat (rewrite replace_step
            by first [ reflexivity
                     | apply placeholderRegExp_None; first [exact H | reflexivity]
                     | apply escapedRegExp_None; assumption ]).

Section PieceSteps.
Variable k : string.
Variable cb : string -> string -> option string.
Hypothesis Hk : k ∈ placeholderNames.

Lemma text_skip (a s : string) :
  includes "$" a = false ->
  String.prefix ("$" +:+ k) s = false ->
  replace (placeholderRegExp k) cb (a +:+ s)
  = String.append a <$> replace (placeholderRegExp k) cb s.
Proof.
  intros Ha Hs. induction a as [|x a IH].
  - change ("" +:+ s) with s. now destruct (replace (placeholderRegExp k) cb s).
  - apply includes_cons_dollar in Ha as [_ Ha].
    change (String x a +:+ s) with (String x (a +:+ s)).
    rewrite replace_step.
    + rewrite (IH Ha). apply fmap_String_append.
    + apply placeholderRegExp_None. destruct a as [|y a]; [exact Hs|].
      apply includes_cons_dollar in Ha as [Hy _].
      change (String.prefix (String "$" k) (String y (a +:+ s)) = false).
      rewrite prefix_cons. destruct (ascii_dec "$" y); [congruence|reflexivity].
Qed.

Lemma placeholder_skip (pre : ascii) (name s : string) :
  name ∈ placeholderNames ->
  name <> k ->
  String.prefix ("$" +:+ k) s = false ->
  replace (placeholderRegExp k) cb (String pre (("$" +:+ name) +:+ s))
  = String.append (String pre ("$" +:+ name)) <$> replace (placeholderRegExp k) cb s.
Proof.
  intros Hname Hne Hs.
  apply name_cases in Hk as [-> | [-> | [-> | ->]]];
    apply name_cases in Hname as [-> | [-> | [-> | ->]]];
    try congruence; cbv [String.append]; skip_units Hs;
    now destruct (replace _ cb s).
Qed.

Lemma escaped_skip (name s : string) :
  name ∈ placeholderNames ->
  String.prefix ("$" +:+ k) s = false ->
  replace (placeholderRegExp k) cb (("$$" +:+ name) +:+ s)
  = String.append ("$$" +:+ name) <$> replace (placeholderRegExp k) cb s.
Proof.
  intros Hname Hs.
  apply name_cases in Hk as [-> | [-> | [-> | ->]]];
    apply name_cases in Hname as [-> | [-> | [-> | ->]]];
    cbv [String.append]; skip_units Hs; now destruct (replace _ cb s).
Qed.
End PieceSteps.

Lemma mapO_compose {A B C} (f : A -> option B) (g : B -> option C) (l : list A) :
  mapO f l ≫= mapO g = mapO (fun x => f x ≫= g) l.
Proof.
  induction l as [|x l IH]; [reflexivity|]. cbn [mapO]. rewrite <- IH.
  destruct (f x) as [y|]; [|reflexivity]. cbn.
  destruct (mapO f l) as [ys|]; cbn; [|now destruct (g y)].
  reflexivity.
Qed.

Lemma mapO_then {A B C D} (f : A -> option B) (g : B -> option C)
    (K : list C -> option D) (l : list A) :
  mapO f l ≫= (fun l' => mapO g l' ≫= K) = mapO (fun x => f x ≫= g) l ≫= K.
Proof. rewrite <- mapO_compose. now destruct (mapO f l). Qed.

Lemma mapO_map {A B C} (f : A -> option B) (h : B -> C) (l : list A) :
  mapO f l ≫= (fun l' => Some (map h l')) = mapO (fun x => f x ≫= fun y => Some (h y)) l.
Proof.
  induction l as [|x l IH]; [reflexivity|]. cbn [mapO]. rewrite <- IH.
  destruct (f x) as [y|]; [|reflexivity]. cbn. now destruct (mapO f l).
Qed.

Lemma mapO_ext {A B} (f g : A -> option B) (P : A -> Prop) (l : list A) :
  (forall x, P x -> f x = g x) -> Forall P l -> mapO f l = mapO g l.
Proof.
  intros Hfg Hl. induction Hl as [|x l Hx _ IH]; [reflexivity|].
  cbn [mapO]. now rewrite (Hfg x Hx), IH.
Qed.

Section PieceRender.
Variable markdownEscape : string -> string.
Variable m : User.t.
Variable g : option string.

Lemma resolve_ok (k : string) (p q : Piece) :
  piece_ok p -> piece_plain markdownEscape m g p ->
  resolve markdownEscape m g k p = Some q ->
  piece_ok q /\ piece_plain markdownEscape m g q.
Proof.
  destruct p as [a | pre name | name]; cbn [resolve];
    try (intros Hok Hpl [= <-]; now split).
  intros [Hpre Hname] Hplain. destruct (String.eqb name k).
  - destruct (placeholderValue markdownEscape m g name) as [v|] eqn:Hv; [|discriminate].
    intros [= <-]. split; [|exact I]. cbn [piece_ok].
    apply includes_behind; [exact Hpre|]. now apply Hplain.
  - intros [= <-]. now split.
Qed.

Lemma resolve_all_ok (k : string) (ps qs : list Piece) :
  Forall piece_ok ps -> Forall (piece_plain markdownEscape m g) ps ->
  mapO (resolve markdownEscape m g k) ps = Some qs ->
  Forall piece_ok qs /\ Forall (piece_plain markdownEscape m g) qs.
Proof.
  intros Hok. revert qs. induction Hok as [|p ps Hp _ IH]; intros qs Hpl.
  - intros [= <-]. now split.
  - apply Forall_cons in Hpl as [Hq Hpl]. cbn [mapO].
    destruct (resolve markdownEscape m g k p) as [q|] eqn:Hres; [|discriminate].
    destruct (mapO (resolve markdownEscape m g k) ps) as [qs'|]; [|discriminate].
    intros [= <-]. destruct (IH qs' Hpl eq_refl) as [IH1 IH2].
    destruct (resolve_ok k p q Hp Hq Hres). split; constructor; assumption.
Qed.

Lemma placeholder_step_pieces (k : string) (cb : string -> string -> option string)
    (ps : list Piece) :
  k ∈ placeholderNames ->
  (forall pre, cb (String pre ("$" +:+ k)) (String pre "")
               = String pre <$> placeholderValue markdownEscape m g k) ->
  Forall piece_ok ps ->
  replace (placeholderRegExp k) cb (template_of ps)
  = template_of <$> mapO (resolve markdownEscape m g k) ps.
Proof.
  intros Hk Hcb Hps. induction Hps as [|p ps Hp Hps IH]; [reflexivity|].
  cbn [mapO]. rewrite template_of_cons.
  pose proof (template_start k ps Hk Hps) as Hstart.
  destruct p as [a | pre name | name]; cbn [piece_text resolve].
  - rewrite (text_skip k cb a _ Hp Hstart), IH.
    now destruct (mapO (resolve markdownEscape m g k) ps).
  - destruct Hp as [Hpre Hname]. destruct (String.eqb_spec name k) as [-> | Hne].
    + change (String pre ("$" +:+ k) +:+ template_of ps)
        with (String pre (("$" +:+ k) +:+ template_of ps)).
      rewrite (placeholder_match k cb pre _ Hpre), Hcb, IH.
      destruct (placeholderValue markdownEscape m g k); [|reflexivity].
      now destruct (mapO (resolve markdownEscape m g k) ps).
    + change (String pre ("$" +:+ name) +:+ template_of ps)
        with (String pre (("$" +:+ name) +:+ template_of ps)).
      rewrite (placeholder_skip k cb Hk pre name _ Hname Hne Hstart), IH.
      now destruct (mapO (resolve markdownEscape m g k) ps).
  - rewrite (escaped_skip k cb Hk name _ Hp Hstart), IH.
    now destruct (mapO (resolve markdownEscape m g k) ps).
Qed.

Lemma unescape_pieces (ps : list Piece) :
  Forall piece_ok ps ->
  unescapeStep markdownEscape (template_of ps)
  = Some (joined (map (unescaped markdownEscape) ps)).
Proof.
  unfold unescapeStep.
  set (cb := fun _ match1 : string => Some ("$" +:+ markdownEscape match1)).
  intros Hps. induction Hps as [|p ps Hp Hps IH]; [reflexivity|].
  cbn [map joined fold_right]. rewrite template_of_cons.
  fold (joined (map (unescaped markdownEscape) ps)).
  destruct p as [a | pre name | name]; cbn [piece_text unescaped].
  - induction a as [|x a IHa]; [exact IH|].
    apply includes_cons_dollar in Hp as [Hx Ha].
    change (String x a +:+ template_of ps) with (String x (a +:+ template_of ps)).
    rewrite replace_step by now apply escapedRegExp_None.
    now rewrite (IHa Ha).
  - destruct Hp as [Hpre Hname].
    apply name_cases in Hname as [-> | [-> | [-> | ->]]];
      cbv [String.append]; skip_units Hpre; now rewrite IH.
  - rewrite append_assoc, (escaped_match name cb _ Hp), IH. reflexivity.
Qed.

Lemma pieces_resolved (p : Piece) :
  piece_ok p ->
  ((((resolve markdownEscape m g "username" p
        ≫= resolve markdownEscape m g "firstname")
       ≫= resolve markdownEscape m g "groupname")
      ≫= resolve markdownEscape m g "safeusername")
     ≫= fun q => Some (unescaped markdownEscape q))
  = piece_rendered markdownEscape m g p.
Proof.
  destruct p as [a | pre name | name]; try reflexivity.
  intros [_ Hname].
  apply name_cases in Hname as [-> | [-> | [-> | ->]]];
    cbv [resolve piece_rendered String.eqb Ascii.eqb Bool.eqb mbind option_bind
           fmap option_fmap option_map];
    destruct (placeholderValue markdownEscape m g _); reflexivity.
Qed.

(** The render of a template in pieces, with the steps in their order. *)
Lemma composeMessage_steps (ps : list Piece) :
  Forall piece_ok ps ->
  Forall (piece_plain markdownEscape m g) ps ->
  composeMessage markdownEscape (template_of ps) m g
  = mapO (resolve markdownEscape m g "username") ps ≫= fun ps1 =>
    mapO (resolve markdownEscape m g "firstname") ps1 ≫= fun ps2 =>
    mapO (resolve markdownEscape m g "groupname") ps2 ≫= fun ps3 =>
    mapO (resolve markdownEscape m g "safeusername") ps3 ≫= fun ps4 =>
    Some (joined (map (unescaped markdownEscape) ps4)).
Proof.
  intros Hok Hpl. unfold composeMessage.
  unfold usernameStep, firstnameStep, groupnameStep, safeusernameStep.
  assert (Hin : forall n, In n ["username"; "safeusername"; "firstname"; "groupname"] ->
                          n ∈ placeholderNames).
  { intros n Hn. unfold placeholderNames. now apply list_elem_of_In. }
  rewrite (placeholder_step_pieces "username");
    [| apply Hin; cbn; tauto
     | intros pre; cbn [placeholderValue String.eqb Ascii.eqb Bool.eqb];
       now destruct (User.username m)
     | exact Hok].
  destruct (mapO (resolve markdownEscape m g "username") ps) as [ps1|] eqn:E1;
    [|reflexivity].
  destruct (resolve_all_ok "username" ps ps1 Hok Hpl E1) as [Hok1 Hpl1].
  cbn [fmap option_fmap option_map mbind option_bind].
  rewrite (placeholder_step_pieces "firstname");
    [| apply Hin; cbn; tauto | intros pre; reflexivity | exact Hok1].
  destruct (mapO (resolve markdownEscape m g "firstname") ps1) as [ps2|] eqn:E2;
    [|reflexivity].
  destruct (resolve_all_ok "firstname" ps1 ps2 Hok1 Hpl1 E2) as [Hok2 Hpl2].
  cbn [fmap option_fmap option_map mbind option_bind].
  rewrite (placeholder_step_pieces "groupname");
    [| apply Hin; cbn; tauto
     | intros pre; cbn [placeholderValue String.eqb Ascii.eqb Bool.eqb];
       now destruct g
     | exact Hok2].
  destruct (mapO (resolve markdownEscape m g "groupname") ps2) as [ps3|] eqn:E3;
    [|reflexivity].
  destruct (resolve_all_ok "groupname" ps2 ps3 Hok2 Hpl2 E3) as [Hok3 Hpl3].
  cbn [fmap option_fmap option_map mbind option_bind].
  rewrite (placeholder_step_pieces "safeusername");
    [| apply Hin; cbn; tauto
     | intros pre; cbn [placeholderValue String.eqb Ascii.eqb Bool.eqb];
       destruct (truthy_string (User.username m)); [|reflexivity];
       now destruct (User.username m)
     | exact Hok3].
  destruct (mapO (resolve markdownEscape m g "safeusername") ps3) as [ps4|] eqn:E4;
    [|reflexivity].
  destruct (resolve_all_ok "safeusername" ps3 ps4 Hok3 Hpl3 E4) as [Hok4 _].
  cbn [fmap option_fmap option_map mbind option_bind].
  apply unescape_pieces, Hok4.
Qed.

(** The five steps on pieces, put together. *)
Lemma render_in_pieces (ps : list Piece) :
  Forall piece_ok ps ->
  Forall (piece_plain markdownEscape m g) ps ->
  composeMessage markdownEscape (template_of ps) m g = rendered markdownEscape m g ps.
Proof.
  intros Hok Hpl. rewrite (composeMessage_steps ps Hok Hpl). unfold rendered.
  rewrite (mapO_then (resolve markdownEscape m g "username")
             (resolve markdownEscape m g "firstname")).
  rewrite (mapO_then _ (resolve markdownEscape m g "groupname")).
  rewrite (mapO_then _ (resolve markdownEscape m g "safeusername")).
  transitivity
    (joined <$>
       (mapO (fun x => ((resolve markdownEscape m g "username" x
                           ≫= resolve markdownEscape m g "firstname")
                          ≫= resolve markdownEscape m g "groupname")
                         ≫= resolve markdownEscape m g "safeusername") ps
          ≫= fun qs => Some (map (unescaped markdownEscape) qs))).
  { now destruct (mapO _ ps). }
  rewrite mapO_map. f_equal.
  apply (mapO_ext _ _ piece_ok); [|exact Hok].
  intros p Hp. apply (pieces_resolved p Hp).
Qed.

End PieceRender.


Section StepsOnPieces.
Variable markdownEscape : string -> string.
Variable m : User.t.
Variable g : option string.


(** The render returns when the member has a username, or the template no
    [$username], and the chat has a title. *)
Lemma composeMessage_returns (msg : string) (title : string) :
  User.username m <> None \/ includes "$username" msg = false ->
  is_Some (composeMessage markdownEscape msg m (Some title)).
Proof.
  intros Hname. unfold composeMessage.
  assert (H1 : is_Some (usernameStep markdownEscape m msg)).
  { unfold usernameStep. destruct Hname as [Hu | Hfree].
    - apply replace_returns. intros full pre.
      destruct (User.username m); [cbn; eauto | congruence].
    - rewrite (replace_placeholder_free "username") by exact Hfree. eauto. }
  destruct H1 as [s1 ->]. cbn [mbind option_bind].
  destruct (replace_returns (placeholderRegExp "firstname")
              (fun _ pre => Some (pre +:+ markdownEscape (User.first_name m))) s1)
    as [s2 H2]; [eauto|].
  unfold firstnameStep. rewrite H2. cbn [mbind option_bind].
  destruct (replace_returns (placeholderRegExp "groupname")
              (fun _ pre => name ← escapeValue markdownEscape (Some title);
                            Some (pre +:+ name)) s2)
    as [s3 H3]; [cbn; eauto|].
  unfold groupnameStep. rewrite H3. cbn [mbind option_bind].
  assert (H4 : is_Some (safeusernameStep markdownEscape m s3)).
  { unfold safeusernameStep. apply replace_returns. intros full pre.
    destruct (User.username m) as [[|c h]|]; cbn; eauto. }
  destruct H4 as [s4 ->]. cbn [mbind option_bind].
  unfold unescapeStep. apply replace_returns. eauto.
Qed.
End StepsOnPieces.

(** X2.  The introduction names the group and nothing else: for a chat
    with a title it is the text of [INTRO_MSG] with the escaped title at
    its end, whoever added the bot, provided the escaped title has no
    [$]; for a chat without title the render throws. *)
Theorem composeIntroMessage_names_group (markdownEscape : string -> string)
    (owner : User.t) (title : string) :
  includes "$" (markdownEscape title) = false ->
  INTRO_MSG = INTRO_TEXT +:+ "$groupname"
  /\ composeIntroMessage markdownEscape owner (Some title)
     = Some (INTRO_TEXT +:+ markdownEscape title)
  /\ composeIntroMessage markdownEscape owner None = None.
Proof.
  intros Hg. split; [reflexivity|]. unfold composeIntroMessage.
  set (ps := [Text (String.substring 0 (String.length INTRO_TEXT - 1) INTRO_TEXT);
              Placeholder " " "groupname"]).
  change INTRO_MSG with (template_of ps).
  assert (Hok : Forall piece_ok ps).
  { constructor; [reflexivity|]. constructor; [|constructor].
    split; [discriminate|]. unfold placeholderNames.
    repeat first [apply list_elem_of_here | apply list_elem_of_further]. }
  split.
  - rewrite render_in_pieces; [| exact Hok |].
    + unfold rendered, ps. cbn [mapO piece_rendered placeholderValue String.eqb
        Ascii.eqb Bool.eqb escapeValue fmap option_fmap option_map mbind option_bind].
      cbv [joined foldr]. rewrite append_nil_r. f_equal.
    + constructor; [exact I|]. constructor; [|constructor].
      intros v Hv. cbn in Hv. injection Hv as <-. exact Hg.
  - rewrite render_in_pieces; [reflexivity | exact Hok |].
    constructor; [exact I|]. constructor; [|constructor].
    intros v Hv. discriminate Hv.
Qed.

(** What C1 asks for, behind a unit other than [$]: for a member with a
    username the token is replaced by [@] and the escaped username; for a
    member without one the render throws. *)
Lemma username_behind_unit (markdownEscape : string -> string) (m : User.t)
    (g : option string) (c : ascii) :
  c <> "$"%char ->
  (forall handle, User.username m = Some handle ->
                  includes "$" (markdownEscape handle) = false) ->
  composeMessage markdownEscape (String c "$username") m g
  = match User.username m with
    | Some handle => Some (String c ("@" +:+ markdownEscape handle))
    | None => None
    end.
Proof.
  intros Hc Hplain.
  change (String c "$username") with (template_of [Placeholder c "username"]).
  rewrite render_in_pieces.
  - unfold rendered. cbn [mapO piece_rendered placeholderValue String.eqb Ascii.eqb
      Bool.eqb mbind option_bind].
    destruct (User.username m) as [handle|]; [|reflexivity].
    cbn [escapeValue mbind option_bind fmap option_fmap option_map].
    cbv [joined foldr]. now rewrite append_nil_r.
  - constructor; [|constructor]. split; [exact Hc|]. unfold placeholderNames.
    apply list_elem_of_here.
  - constructor; [|constructor]. intros v.
    cbn [placeholderValue String.eqb Ascii.eqb Bool.eqb].
    destruct (User.username m) as [handle|]; [|discriminate].
    cbn [escapeValue mbind option_bind]. intros [= <-].
    change (includes "$" (String "@" (markdownEscape handle)) = false).
    cbn [includes]. rewrite (Hplain handle eq_refl).
    now destruct (markdownEscape handle).
Qed.

Section StartOfTemplate.
Variable markdownEscape : string -> string.
Variable m : User.t.
Variable g : option string.

Lemma placeholder_step_head (k : string) (cb : string -> string -> option string)
    (c : ascii) (s : string) :
  (forall full, exists o, cb full (String c "") = String c <$> o) ->
  exists o, replace (placeholderRegExp k) cb (String c s) = String c <$> o.
Proof.
  intros Hcb. unfold replace. cbn [replace_from].
  destruct (placeholderRegExp k (String c s)) as [[full group]|] eqn:Hre.
  - unfold placeholderRegExp in Hre.
    destruct (negb (Ascii.eqb c "$") && String.prefix ("$" +:+ k) s); [|discriminate].
    injection Hre as <- <-. destruct (Hcb (String c ("$" +:+ k))) as [o ->].
    destruct o as [t|]; [|exists None; reflexivity].
    cbn [fmap option_fmap option_map mbind option_bind].
    destruct (replace_from _ cb _ s) as [tail|]; [|exists None; reflexivity].
    exists (Some (t +:+ tail)). reflexivity.
  - eexists. reflexivity.
Qed.

Lemma placeholder_step_keeps_token (k name : string)
    (cb : string -> string -> option string) (s : string) :
  (forall full c, exists o, cb full (String c "") = String c <$> o) ->
  k ∈ placeholderNames -> name ∈ placeholderNames ->
  exists o, replace (placeholderRegExp k) cb (("$" +:+ name) +:+ s)
            = String.append ("$" +:+ name) <$> o.
Proof.
  intros Hcb Hk Hname.
  apply name_cases in Hk as [-> | [-> | [-> | ->]]];
    apply name_cases in Hname as [-> | [-> | [-> | ->]]];
    cbv [String.append]; skip_units I;
    match goal with
    | |- context [replace (placeholderRegExp ?k) cb (String ?c s)] =>
        destruct (placeholder_step_head k cb c s (fun full => Hcb full c)) as [o ->]
    end; exists o; now destruct o.
Qed.

Lemma unescape_keeps_token (name s : string) :
  name ∈ placeholderNames ->
  unescapeStep markdownEscape (("$" +:+ name) +:+ s)
  = String.append ("$" +:+ name) <$> unescapeStep markdownEscape s.
Proof.
  intros Hname. unfold unescapeStep.
  apply name_cases in Hname as [-> | [-> | [-> | ->]]];
    cbv [String.append]; skip_units I;
    now destruct (replace escapedRegExp _ s).
Qed.

Lemma composeMessage_keeps_token (name rest : string) :
  name ∈ placeholderNames ->
  exists o, composeMessage markdownEscape (("$" +:+ name) +:+ rest) m g
            = String.append ("$" +:+ name) <$> o.
Proof.
  intros Hname. unfold composeMessage.
  unfold usernameStep, firstnameStep, groupnameStep, safeusernameStep.
  assert (Hin : forall n, In n ["username"; "safeusername"; "firstname"; "groupname"] ->
                          n ∈ placeholderNames).
  { intros n Hn. unfold placeholderNames. now apply list_elem_of_In. }
  destruct (placeholder_step_keeps_token "username" name
              (fun _ pre => handle ← escapeValue markdownEscape (User.username m);
                            Some (pre +:+ "@" +:+ handle)) rest)
    as [[r1|] ->];
    [ intros full c; destruct (User.username m);
        [eexists (Some _) | exists None]; reflexivity
    | apply Hin; cbn; tauto | exact Hname | | exists None; reflexivity ].
  cbn [fmap option_fmap option_map mbind option_bind].
  destruct (placeholder_step_keeps_token "firstname" name
              (fun _ pre => Some (pre +:+ markdownEscape (User.first_name m))) r1)
    as [[r2|] ->];
    [ intros full c; eexists (Some _); reflexivity
    | apply Hin; cbn; tauto | exact Hname | | exists None; reflexivity ].
  cbn [fmap option_fmap option_map mbind option_bind].
  destruct (placeholder_step_keeps_token "groupname" name
              (fun _ pre => name ← escapeValue markdownEscape g; Some (pre +:+ name)) r2)
    as [[r3|] ->];
    [ intros full c; destruct g; [eexists (Some _) | exists None]; reflexivity
    | apply Hin; cbn; tauto | exact Hname | | exists None; reflexivity ].
  cbn [fmap option_fmap option_map mbind option_bind].
  destruct (placeholder_step_keeps_token "safeusername" name
              (fun _ pre =>
                 if truthy_string (User.username m)
                 then handle ← escapeValue markdownEscape (User.username m);
                      Some (pre +:+ "@" +:+ handle)
                 else Some (pre +:+ "@" +:+ markdownEscape (User.first_name m))) r3)
    as [[r4|] ->];
    [ intros full c; destruct (truthy_string (User.username m));
        [destruct (User.username m); [eexists (Some _) | exists None]
        | eexists (Some _)]; reflexivity
    | apply Hin; cbn; tauto | exact Hname | | exists None; reflexivity ].
  cbn [fmap option_fmap option_map mbind option_bind].
  rewrite (unescape_keeps_token name r4 Hname). eexists. reflexivity.
Qed.

(** X3.  A placeholder that opens the template is never replaced,
    whatever follows it: a rendered message begins with the same token;
    and the render returns one when the member has a username and the
    chat a title. *)
Theorem placeholder_at_start_stays (name rest : string) :
  name ∈ placeholderNames ->
  (forall out, composeMessage markdownEscape (("$" +:+ name) +:+ rest) m g = Some out ->
               exists rest', out = ("$" +:+ name) +:+ rest')
  /\ (User.username m <> None -> g <> None ->
      exists rest', composeMessage markdownEscape (("$" +:+ name) +:+ rest) m g
                    = Some (("$" +:+ name) +:+ rest')).
Proof.
  intros Hname.
  destruct (composeMessage_keeps_token name rest Hname) as [o Ho].
  split.
  - intros out Hout. rewrite Ho in Hout. destruct o as [r|]; [|discriminate].
    injection Hout as <-. eexists. reflexivity.
  - intros Hu Hg. destruct g as [title|] eqn:Eg; [|congruence].
    destruct (composeMessage_returns markdownEscape m (("$" +:+ name) +:+ rest) title
                (or_introl Hu)) as [out Hout].
    rewrite Ho in Hout. destruct o as [r|]; [|discriminate].
    rewrite Ho. eexists. reflexivity.
Qed.
End StartOfTemplate.

(** * Properties of the config store *)

Lemma if_truthy_Some (o : option jsval) (v : jsval) :
  if_truthy o = Some v <-> o = Some v /\ truthy v = true.
Proof.
  unfold if_truthy. destruct o as [x|]; [destruct (truthy x) eqn:E|];
    split; intros H; try discriminate; try (destruct H; congruence).
  injection H as <-. auto.
Qed.

Lemma truthy_JStr (v : jsval) (s : string) : v = JStr s -> truthy v = true -> s <> "".
Proof. intros -> H ->. discriminate. Qed.

Lemma DEFAULT_MSG_TEMPLATE_truthy : truthy (JStr DEFAULT_MSG_TEMPLATE) = true.
Proof. reflexivity. Qed.

(** C5, as the code has it.  [getMsgTemplate] never throws and leaves the
    store and the sent messages as they are.  It returns the entry of the
    template table when that entry is truthy, without touching the table;
    otherwise the value stored under the template key when that value is
    truthy, and failing that the default template, and records what it
    returns in the table.  An entry that is absent or falsy (the empty
    text) counts as missing.  When the table and the template keys hold
    texts, the result is a non-empty text. *)
Theorem C5_getMsgTemplate_read_through (chatId : Z) (w : World) :
  exists v w',
    getMsgTemplate chatId w = Done v w'
    /\ storage w' = storage w /\ sent w' = sent w
    /\ (forall x, msgTemplates w !! chatId = Some x -> truthy x = true ->
         v = x /\ w' = w)
    /\ (if_truthy (msgTemplates w !! chatId) = None ->
         msgTemplates w' = <[chatId := v]> (msgTemplates w)
         /\ (forall t, storage w !! getMsgTemplateKey chatId = Some t ->
                       truthy t = true -> v = t)
         /\ (if_truthy (storage w !! getMsgTemplateKey chatId) = None ->
              v = JStr DEFAULT_MSG_TEMPLATE))
    /\ (templates_typed w -> exists s, v = JStr s /\ s <> "").
Proof.
  unfold getMsgTemplate, bind, msgTemplates_get, storage_getItem, msgTemplates_set, ret.
  destruct (if_truthy (msgTemplates w !! chatId)) as [x|] eqn:Hc.
  - apply if_truthy_Some in Hc as [Hx Htx].
    exists x, w. split; [reflexivity|]. split; [reflexivity|]. split; [reflexivity|].
    split; [|split].
    + intros y Hy _. split; congruence.
    + intros H.
      assert (if_truthy (msgTemplates w !! chatId) = Some x)
        by (apply if_truthy_Some; auto). congruence.
    + intros [Hm _]. destruct (Hm _ _ Hx) as [s ->]. exists s. split; [reflexivity|].
      now apply (truthy_JStr (JStr s)).
  - assert (Hmiss : forall y, msgTemplates w !! chatId = Some y -> truthy y = true -> False).
    { intros y Hy Hty.
      assert (if_truthy (msgTemplates w !! chatId) = Some y)
        by (apply if_truthy_Some; auto). congruence. }
    destruct (if_truthy (storage w !! getMsgTemplateKey chatId)) as [t|] eqn:Hs.
    + apply if_truthy_Some in Hs as [Ht Htt].
      eexists t, _. split; [reflexivity|]. simpl.
      split; [reflexivity|]. split; [reflexivity|]. split; [|split].
      * intros y Hy Hty. destruct (Hmiss y Hy Hty).
      * intros _. split; [reflexivity|]. split.
        -- intros y Hy _. congruence.
        -- intros H.
           assert (if_truthy (storage w !! getMsgTemplateKey chatId) = Some t)
             by (apply if_truthy_Some; auto). congruence.
      * intros [_ Hst]. destruct (Hst _ _ Ht) as [s ->]. exists s. split; [reflexivity|].
        now apply (truthy_JStr (JStr s)).
    + eexists (JStr DEFAULT_MSG_TEMPLATE), _. split; [reflexivity|]. simpl.
      split; [reflexivity|]. split; [reflexivity|]. split; [|split].
      * intros y Hy Hty. destruct (Hmiss y Hy Hty).
      * intros _. split; [reflexivity|]. split; [|reflexivity].
        intros y Hy Hty.
        assert (if_truthy (storage w !! getMsgTemplateKey chatId) = Some y)
          by (apply if_truthy_Some; auto). congruence.
      * intros _. eexists. split; [reflexivity|discriminate].
Qed.

(** C5 as stated fails on an empty text: after [setMsgTemplate 1 ""] the
    table has an entry and the store has a value for chat 1, and
    [getMsgTemplate] returns neither but the default template, which it
    puts into the table over the entry. *)
Lemma C5_empty_entry_is_skipped :
  msgTemplates emptyTemplateWorld !! 1 = Some (JStr "")
  /\ storage emptyTemplateWorld !! getMsgTemplateKey 1 = Some (JStr "")
  /\ exists w', getMsgTemplate 1 emptyTemplateWorld = Done (JStr DEFAULT_MSG_TEMPLATE) w'
      /\ JStr DEFAULT_MSG_TEMPLATE <> JStr ""
      /\ msgTemplates w' !! 1 = Some (JStr DEFAULT_MSG_TEMPLATE).
Proof.
  split; [reflexivity|]. split; [reflexivity|].
  eexists. split; [reflexivity|]. split; [discriminate|reflexivity].
Qed.

(** C6, for a non-empty template.  After [setMsgTemplate] the entry of the
    template table and the value stored under the template key are both
    the new template, and [getMsgTemplate] returns it from the table and
    changes nothing. *)
Theorem C6_setMsgTemplate_mirror_agrees (chatId : Z) (t : string) (w : World) :
  t <> "" ->
  exists w1,
    setMsgTemplate chatId t w = Done tt w1
    /\ msgTemplates w1 !! chatId = Some (JStr t)
    /\ storage w1 !! getMsgTemplateKey chatId = Some (JStr t)
    /\ getMsgTemplate chatId w1 = Done (JStr t) w1.
Proof.
  intros Ht. eexists. split; [reflexivity|]. simpl.
  split; [apply lookup_insert_eq|]. split; [apply lookup_insert_eq|].
  unfold getMsgTemplate, bind, msgTemplates_get. simpl.
  rewrite lookup_insert_eq. simpl.
  destruct (String.eqb_spec t ""); [contradiction|reflexivity].
Qed.

(** C6 as stated fails for the empty template: the table and the store
    both hold it, yet [getMsgTemplate] returns the default template and
    leaves the table with the default while the store keeps the empty
    text. *)
Lemma C6_empty_template_diverges :
  setMsgTemplate 1 "" emptyWorld = Done tt emptyTemplateWorld
  /\ exists w2, getMsgTemplate 1 emptyTemplateWorld = Done (JStr DEFAULT_MSG_TEMPLATE) w2
    /\ JStr DEFAULT_MSG_TEMPLATE <> JStr ""
    /\ msgTemplates w2 !! 1 = Some (JStr DEFAULT_MSG_TEMPLATE)
    /\ storage w2 !! getMsgTemplateKey 1 = Some (JStr "").
Proof.
  split; [reflexivity|]. eexists. split; [reflexivity|]. split; [discriminate|].
  split; reflexivity.
Qed.

(** * Properties of the handlers *)

Lemma trimStart_whiteSpace (w s : string) :
  w ∈ whiteSpace -> trimStart (w +:+ s) = trimStart s.
Proof.
  intros Hin. unfold whiteSpace in Hin. cbn in Hin.
  repeat (apply elem_of_cons in Hin as [-> | Hin]);
    try (apply elem_of_nil in Hin; contradiction);
    destruct s; reflexivity.
Qed.

Lemma trim_joined (ws : list string) :
  Forall (fun w => w ∈ whiteSpace) ws -> trim (joined ws) = "".
Proof.
  intros Hws. unfold trim.
  assert (Hstart : trimStart (joined ws) = "").
  { induction Hws as [|w ws Hw _ IH]; [reflexivity|].
    cbn [joined fold_right]. rewrite trimStart_whiteSpace by exact Hw. exact IH. }
  rewrite Hstart. reflexivity.
Qed.

Example trim_keeps_inner_space : trim "  Welcome $firstname!
 " = "Welcome $firstname!".
Proof. reflexivity. Qed.

Section HandlerFacts.
Variable markdownEscape : string -> string.
Variable marked : string -> string.
Variable BOT_ID : Z.

Lemma strict_eq_owner (n : Z) (stored : option jsval) :
  strict_eq (Some (JNum n)) stored = true <-> stored = Some (JNum n).
Proof.
  unfold strict_eq. rewrite bool_decide_eq_true. split; congruence.
Qed.

Lemma changeWelcomeMessageHandler_denied (msg : Message) (match1 : string) (w : World) :
  isGroup msg = true ->
  storage w !! getOwnerIdKey (Chat.id (chat msg)) <> Some (JNum (User.id (from msg))) ->
  changeWelcomeMessageHandler markdownEscape marked msg match1 w
  = Done tt (delivered w (Chat.id (chat msg))
       (marked (composeErrorMessage
          "Only the user who introduced me to this group can change the message!"))).
Proof.
  intros Hgroup Hother.
  unfold changeWelcomeMessageHandler. rewrite Hgroup. cbn [negb].
  unfold bind, getOwnerId, storage_getItem.
  destruct (strict_eq _ (storage w !! getOwnerIdKey (Chat.id (chat msg)))) eqn:Heq.
  - apply strict_eq_owner in Heq. contradiction.
  - reflexivity.
Qed.

Lemma changeWelcomeMessageEmptyHandler_group (msg : Message) (w : World) :
  isGroup msg = true ->
  changeWelcomeMessageEmptyHandler marked msg w
  = Done tt (delivered w (Chat.id (chat msg))
       (marked (composeErrorMessage "You can't set an empty message!"))).
Proof.
  intros Hgroup. unfold changeWelcomeMessageEmptyHandler. rewrite Hgroup. reflexivity.
Qed.

(** C7, as the code has it.  In a group, from a member whose id is not the
    owner id stored for the chat: the change command with a text sends the
    permission error to the chat, and the change command without a text
    sends the empty-message error (it is handled without a look at the
    owner).  Neither changes the store (template and owner id) or the
    template table. *)
Theorem C7_non_owner_is_denied (msg : Message) (match1 : string) (w : World) :
  isGroup msg = true ->
  storage w !! getOwnerIdKey (Chat.id (chat msg)) <> Some (JNum (User.id (from msg))) ->
  (exists w',
    changeWelcomeMessageHandler markdownEscape marked msg match1 w = Done tt w'
    /\ storage w' = storage w
    /\ msgTemplates w' = msgTemplates w
    /\ sent w' = sent w ++
         [(Chat.id (chat msg),
           marked (composeErrorMessage
             "Only the user who introduced me to this group can change the message!"))])
  /\ (exists w',
    changeWelcomeMessageEmptyHandler marked msg w = Done tt w'
    /\ storage w' = storage w
    /\ msgTemplates w' = msgTemplates w
    /\ sent w' = sent w ++
         [(Chat.id (chat msg),
           marked (composeErrorMessage "You can't set an empty message!"))]).
Proof.
  intros Hgroup Hother. split; eexists.
  - split; [now apply changeWelcomeMessageHandler_denied|]. repeat split.
  - split; [now apply changeWelcomeMessageEmptyHandler_group|]. repeat split.
Qed.

(** C8, as the code has it.  In a group, the command without text is
    answered with the empty-message error.  The command with a text made of
    white space only is answered with the same error when the member is
    the stored owner, and with the permission error when not.  In every
    one of these cases the store and the template table stay as they
    were. *)
Theorem C8_empty_message_is_rejected (msg : Message) (ws : list string) (w : World) :
  isGroup msg = true ->
  Forall (fun u => u ∈ whiteSpace) ws ->
  changeWelcomeMessageEmptyHandler marked msg w
  = Done tt (delivered w (Chat.id (chat msg))
       (marked (composeErrorMessage "You can't set an empty message!")))
  /\ (storage w !! getOwnerIdKey (Chat.id (chat msg)) = Some (JNum (User.id (from msg))) ->
      changeWelcomeMessageHandler markdownEscape marked msg (joined ws) w
      = Done tt (delivered w (Chat.id (chat msg))
           (marked (composeErrorMessage "You can't set an empty message!"))))
  /\ (storage w !! getOwnerIdKey (Chat.id (chat msg)) <> Some (JNum (User.id (from msg))) ->
      changeWelcomeMessageHandler markdownEscape marked msg (joined ws) w
      = Done tt (delivered w (Chat.id (chat msg))
           (marked (composeErrorMessage
              "Only the user who introduced me to this group can change the message!"))))
  /\ storage (world_of (changeWelcomeMessageHandler markdownEscape marked msg (joined ws) w))
     = storage w
  /\ msgTemplates (world_of (changeWelcomeMessageHandler markdownEscape marked msg (joined ws) w))
     = msgTemplates w.
Proof.
  intros Hgroup Hws.
  pose proof (changeWelcomeMessageEmptyHandler_group msg w Hgroup) as Hempty.
  assert (Howner :
    storage w !! getOwnerIdKey (Chat.id (chat msg)) = Some (JNum (User.id (from msg))) ->
    changeWelcomeMessageHandler markdownEscape marked msg (joined ws) w
    = Done tt (delivered w (Chat.id (chat msg))
         (marked (composeErrorMessage "You can't set an empty message!")))).
  { intros Hown. unfold changeWelcomeMessageHandler.
    rewrite Hgroup. cbn [negb]. unfold bind at 1, getOwnerId, storage_getItem.
    rewrite Hown.
    assert (Heq : strict_eq (Some (JNum (User.id (from msg))))
                    (Some (JNum (User.id (from msg)))) = true)
      by now apply strict_eq_owner.
    rewrite Heq. cbn [negb]. rewrite trim_joined by exact Hws. exact Hempty. }
  split; [exact Hempty|]. split; [exact Howner|]. split.
  - now apply changeWelcomeMessageHandler_denied.
  - destruct (decide (storage w !! getOwnerIdKey (Chat.id (chat msg))
                      = Some (JNum (User.id (from msg))))) as [Hown | Hother].
    + rewrite (Howner Hown). split; reflexivity.
    + rewrite (changeWelcomeMessageHandler_denied msg (joined ws) w Hgroup Hother).
      split; reflexivity.
Qed.

Lemma getMsgTemplate_missing (chatId : Z) (w : World) :
  msgTemplates w !! chatId = None ->
  storage w !! getMsgTemplateKey chatId = None ->
  getMsgTemplate chatId w
  = Done (JStr DEFAULT_MSG_TEMPLATE)
      {| storage := storage w;
         msgTemplates := <[chatId := JStr DEFAULT_MSG_TEMPLATE]> (msgTemplates w);
         sent := sent w |}.
Proof.
  intros Htab Hst.
  unfold getMsgTemplate, bind, msgTemplates_get, storage_getItem.
  rewrite Htab. cbn [if_truthy]. rewrite Hst. reflexivity.
Qed.

(** C9.  When the member that left is the bot, the handler removes the
    owner id and the template of the chat from the store and the template
    from the template table; afterwards [getOwnerId] finds nothing for the
    chat and [getMsgTemplate] returns the default template. *)
Theorem C9_bot_left_forgets_chat (msg : Message) (member : User.t) (w : World) :
  left_chat_member msg = Some member ->
  User.id member = BOT_ID ->
  exists w',
    memberLeftHandler BOT_ID msg w = Done tt w'
    /\ storage w' !! getOwnerIdKey (Chat.id (chat msg)) = None
    /\ storage w' !! getMsgTemplateKey (Chat.id (chat msg)) = None
    /\ msgTemplates w' !! Chat.id (chat msg) = None
    /\ sent w' = sent w
    /\ getOwnerId (Chat.id (chat msg)) w' = Done None w'
    /\ exists w'', getMsgTemplate (Chat.id (chat msg)) w' = Done (JStr DEFAULT_MSG_TEMPLATE) w''.
Proof.
  intros Hleft Hbot. unfold memberLeftHandler. rewrite Hleft.
  rewrite bool_decide_eq_true_2 by exact Hbot.
  eexists. split; [reflexivity|]. cbn [storage msgTemplates sent].
  fold (getMsgTemplateKey (Chat.id (chat msg))).
  assert (Hown : delete (getMsgTemplateKey (Chat.id (chat msg)))
                   (delete (getOwnerIdKey (Chat.id (chat msg))) (storage w))
                 !! getOwnerIdKey (Chat.id (chat msg)) = None).
  { rewrite lookup_delete. case_decide; [reflexivity|]. apply lookup_delete_eq. }
  split; [exact Hown|]. split; [apply lookup_delete_eq|].
  split; [apply lookup_delete_eq|]. split; [reflexivity|]. split.
  - unfold getOwnerId, storage_getItem. cbn [storage]. now rewrite Hown.
  - eexists. apply getMsgTemplate_missing; cbn [storage msgTemplates];
      apply lookup_delete_eq.
Qed.

(** C10.  The new-member handler looks at the first new member only: with
    several members in one event it does what it does for the first one
    alone.  When that member is the bot, the introduction is composed for
    the sender and the chat, sent, and the sender becomes the owner (and
    when composing throws, nothing is sent or stored); when it is another
    bot, nothing happens; otherwise one welcome message is composed for
    that member and sent (and when composing throws, nothing is sent). *)
Theorem C10_only_first_new_member (c : Chat.t) (f m : User.t) (others : list User.t)
    (l : option User.t) (w : World) :
  newMemberHandler markdownEscape marked BOT_ID (message c f (m :: others) l) w
  = newMemberHandler markdownEscape marked BOT_ID (message c f [m] l) w
  /\ (User.id m = BOT_ID ->
      newMemberHandler markdownEscape marked BOT_ID (message c f (m :: others) l) w
      = match composeIntroMessage markdownEscape f (Chat.title c) with
        | Some intro =>
            setOwnerId (Chat.id c) (User.id f) (delivered w (Chat.id c) (marked intro))
        | None => Thrown w
        end)
  /\ (User.id m <> BOT_ID -> User.is_bot m = true ->
      newMemberHandler markdownEscape marked BOT_ID (message c f (m :: others) l) w = Done tt w)
  /\ (User.id m <> BOT_ID -> User.is_bot m = false ->
      forall template w1, getMsgTemplate (Chat.id c) w = Done (JStr template) w1 ->
      newMemberHandler markdownEscape marked BOT_ID (message c f (m :: others) l) w
      = match composeMessage markdownEscape template m (Chat.title c) with
        | Some text => Done tt (delivered w1 (Chat.id c) (marked text))
        | None => Thrown w1
        end).
Proof.
  split; [reflexivity|]. unfold newMemberHandler, message.
  cbn [new_chat_members lookup list_lookup chat from]. repeat split.
  - intros Hbot. rewrite bool_decide_eq_true_2 by exact Hbot.
    unfold bind at 1. now destruct (composeIntroMessage markdownEscape f (Chat.title c)).
  - intros Hother Hisbot. rewrite bool_decide_eq_false_2 by exact Hother.
    rewrite Hisbot. reflexivity.
  - intros Hother Hisbot template w1 Hget.
    rewrite bool_decide_eq_false_2 by exact Hother. rewrite Hisbot. cbn [negb].
    unfold bind at 1. rewrite Hget. unfold bind, composeMessage_of.
    now destruct (composeMessage markdownEscape template m (Chat.title c)).
Qed.
End HandlerFacts.

(** C7 as stated fails for the command without a text: sent by Bob, who is
    not the owner of the chat, it is answered with the empty-message
    error, not with the permission error. *)
Lemma C7_bare_command_gets_empty_error :
  isGroup (event bob [] None) = true
  /\ storage configuredWorld !! getOwnerIdKey (-1001) = Some (JNum (User.id ana))
  /\ User.id bob <> User.id ana
  /\ changeWelcomeMessageEmptyHandler sampleMarked (event bob [] None) configuredWorld
     = Done tt (delivered configuredWorld (-1001)
         (sampleMarked (composeErrorMessage "You can't set an empty message!")))
  /\ sent (world_of (changeWelcomeMessageEmptyHandler sampleMarked (event bob [] None)
                       configuredWorld))
     <> sent (delivered configuredWorld (-1001)
          (sampleMarked (composeErrorMessage
             "Only the user who introduced me to this group can change the message!"))).
Proof.
  split; [reflexivity|]. split; [reflexivity|]. split; [discriminate|].
  split; [reflexivity|]. vm_compute. discriminate.
Qed.

(** C8 as stated fails for a member who is not the owner: the command with
    a text of three spaces is answered with the permission error, not with
    the empty-message error. *)
Lemma C8_non_owner_blank_gets_permission_error :
  isGroup (event bob [] None) = true
  /\ trim "   " = ""
  /\ changeWelcomeMessageHandler sampleEscape sampleMarked (event bob [] None) "   "
       configuredWorld
     = Done tt (delivered configuredWorld (-1001)
         (sampleMarked (composeErrorMessage
            "Only the user who introduced me to this group can change the message!")))
  /\ sent (world_of (changeWelcomeMessageHandler sampleEscape sampleMarked
             (event bob [] None) "   " configuredWorld))
     <> sent (delivered configuredWorld (-1001)
          (sampleMarked (composeErrorMessage "You can't set an empty message!"))).
Proof.
  split; [reflexivity|]. split; [reflexivity|]. split; [reflexivity|].
  vm_compute. discriminate.
Qed.

(** * The table and the store in the worlds the handlers reach *)

Lemma length_append (a b : string) :
  String.length (a +:+ b) = (String.length a + String.length b)%nat.
Proof.
  induction a as [|c a IH]; [reflexivity|].
  change (S (String.length (a +:+ b)) = S (String.length a + String.length b)).
  now rewrite IH.
Qed.

Lemma append_inj_l (a b s : string) : a +:+ s = b +:+ s -> a = b.
Proof.
  revert b. induction a as [|x a IH]; intros [|y b] H.
  - reflexivity.
  - apply (f_equal String.length) in H.
    rewrite !length_append in H. cbn in H. lia.
  - apply (f_equal String.length) in H.
    rewrite !length_append in H. cbn in H. lia.
  - change (String x (a +:+ s) = String y (b +:+ s)) in H.
    injection H as -> H. f_equal. now apply IH.
Qed.

Lemma append_last (a b : string) (x y : ascii) :
  a +:+ String x "" = b +:+ String y "" -> x = y.
Proof.
  revert b. induction a as [|u a IH]; intros [|v b] H.
  - now injection H.
  - change (String x "" = String v (b +:+ String y "")) in H.
    injection H as _ H. destruct b; discriminate.
  - change (String u (a +:+ String x "") = String y "") in H.
    injection H as _ H. destruct a; discriminate.
  - change (String u (a +:+ String x "") = String v (b +:+ String y "")) in H.
    injection H as _ H. now apply (IH b).
Qed.

Lemma getMsgTemplateKey_inj (c c' : Z) :
  getMsgTemplateKey c = getMsgTemplateKey c' -> c = c'.
Proof.
  unfold getMsgTemplateKey. intros H. apply append_inj_l in H.
  now apply (inj pretty).
Qed.

Lemma getOwnerIdKey_not_template (c c' : Z) : getOwnerIdKey c <> getMsgTemplateKey c'.
Proof.
  unfold getOwnerIdKey, getMsgTemplateKey. intros H.
  change "_owner_id" with ("_owner_i" +:+ "d") in H.
  change "_msg_template" with ("_msg_templat" +:+ "e") in H.
  rewrite <- !append_assoc in H. apply append_last in H. discriminate.
Qed.

Lemma store_consistent_ext (w w' : World) :
  msgTemplates w' = msgTemplates w ->
  (forall c, storage w' !! getMsgTemplateKey c = storage w !! getMsgTemplateKey c) ->
  store_consistent w -> store_consistent w'.
Proof.
  intros Htab Hst [HA HB]. split.
  - intros c v. rewrite Htab, Hst. apply HA.
  - intros c v. rewrite Hst. apply HB.
Qed.

Lemma store_consistent_empty : store_consistent emptyWorld.
Proof. split; intros c v H; cbn in H; rewrite lookup_empty in H; discriminate. Qed.

Lemma delivered_consistent (w : World) (c : Z) (text : string) :
  store_consistent w -> store_consistent (delivered w c text).
Proof. now apply store_consistent_ext. Qed.

Lemma setOwnerId_consistent (c o : Z) (w : World) :
  store_consistent w -> store_consistent (world_of (setOwnerId c o w)).
Proof.
  apply store_consistent_ext; [reflexivity|]. intros c'. cbn.
  apply lookup_insert_ne, getOwnerIdKey_not_template.
Qed.

Lemma removeOwnerId_consistent (c : Z) (w : World) :
  store_consistent w -> store_consistent (world_of (removeOwnerId c w)).
Proof.
  apply store_consistent_ext; [reflexivity|]. intros c'. cbn.
  apply lookup_delete_ne, getOwnerIdKey_not_template.
Qed.

Lemma setMsgTemplate_consistent (c : Z) (t : string) (w : World) :
  t <> "" ->
  store_consistent w -> store_consistent (world_of (setMsgTemplate c t w)).
Proof.
  intros Ht [HA HB]. split; cbn; intros c' v H.
  - destruct (decide (c = c')) as [<- | Hne].
    + rewrite lookup_insert_eq in H. injection H as <-.
      rewrite lookup_insert_eq. eauto.
    + rewrite lookup_insert_ne in H by exact Hne.
      rewrite lookup_insert_ne by (intros E; now apply getMsgTemplateKey_inj in E).
      now apply HA.
  - destruct (decide (c = c')) as [<- | Hne].
    + rewrite lookup_insert_eq in H. injection H as <-. eauto.
    + rewrite lookup_insert_ne in H
        by (intros E; now apply getMsgTemplateKey_inj in E).
      now apply (HB c').
Qed.

Lemma removeMsgTemplate_consistent (c : Z) (w : World) :
  store_consistent w -> store_consistent (world_of (removeMsgTemplate c w)).
Proof.
  intros [HA HB]. split; cbn; fold (getMsgTemplateKey c); intros c' v H.
  - destruct (decide (c = c')) as [<- | Hne].
    + rewrite lookup_delete_eq in H. discriminate.
    + rewrite lookup_delete_ne in H by exact Hne.
      rewrite lookup_delete_ne by (intros E; now apply getMsgTemplateKey_inj in E).
      now apply HA.
  - destruct (decide (c = c')) as [<- | Hne].
    + rewrite lookup_delete_eq in H. discriminate.
    + rewrite lookup_delete_ne in H
        by (intros E; now apply getMsgTemplateKey_inj in E).
      now apply (HB c').
Qed.

Lemma nonempty_truthy (s : string) : s <> "" -> truthy (JStr s) = true.
Proof. intros H. cbn. now destruct (String.eqb_spec s ""). Qed.

(** On a consistent world [getMsgTemplate] is the read-through of C5 as
    the claim words it: the entry when there is one, else the stored value
    when there is one, else the default template. *)
Lemma getMsgTemplate_consistent (c : Z) (w : World) :
  store_consistent w ->
  exists s w',
    getMsgTemplate c w = Done (JStr s) w' /\ s <> "" /\ store_consistent w'
    /\ storage w' = storage w /\ sent w' = sent w
    /\ match msgTemplates w !! c with
       | Some v => v = JStr s /\ w' = w
       | None =>
           msgTemplates w' = <[c := JStr s]> (msgTemplates w)
           /\ match storage w !! getMsgTemplateKey c with
              | Some t => t = JStr s
              | None => s = DEFAULT_MSG_TEMPLATE
              end
       end.
Proof.
  intros Hw. pose proof Hw as [HA HB].
  unfold getMsgTemplate, bind, msgTemplates_get, storage_getItem, msgTemplates_set, ret.
  destruct (msgTemplates w !! c) as [v|] eqn:Htab.
  - destruct (HA c v Htab) as [(s & -> & Hs) _].
    cbn [if_truthy]. rewrite (nonempty_truthy s Hs).
    exists s, w. split; [reflexivity|]. split; [exact Hs|]. split; [exact Hw|].
    repeat split.
  - cbn [if_truthy].
    destruct (storage w !! getMsgTemplateKey c) as [t|] eqn:Hst.
    + destruct (HB c t Hst) as (s & -> & Hs).
      cbn [if_truthy]. rewrite (nonempty_truthy s Hs).
      eexists s, _. split; [reflexivity|]. split; [exact Hs|]. split.
      * split; cbn; intros c' v H.
        -- destruct (decide (c = c')) as [<- | Hne].
           ++ rewrite lookup_insert_eq in H. injection H as <-. eauto.
           ++ rewrite lookup_insert_ne in H by exact Hne. now apply HA.
        -- now apply (HB c').
      * repeat split.
    + cbn [if_truthy].
      eexists DEFAULT_MSG_TEMPLATE, _. split; [reflexivity|].
      split; [discriminate|]. split.
      * split; cbn; intros c' v H.
        -- destruct (decide (c = c')) as [<- | Hne].
           ++ rewrite lookup_insert_eq in H. injection H as <-.
              split; [eexists; split; [reflexivity|discriminate]|]. now right.
           ++ rewrite lookup_insert_ne in H by exact Hne. now apply HA.
        -- now apply (HB c').
      * repeat split.
Qed.

Section Reach.
Variable markdownEscape : string -> string.
Variable marked : string -> string.
Variable BOT_ID : Z.

Lemma newMemberHandler_consistent (msg : Message) (w : World) :
  store_consistent w ->
  store_consistent (world_of (newMemberHandler markdownEscape marked BOT_ID msg w)).
Proof.
  intros Hw. unfold newMemberHandler.
  destruct (new_chat_members msg !! 0%nat) as [m|]; [|exact Hw].
  case_bool_decide.
  - unfold bind at 1.
    destruct (composeIntroMessage markdownEscape (from msg) (Chat.title (chat msg)));
      [|exact Hw].
    unfold evaluated, ret, bind, sendMessage, bot_sendMessage.
    now apply setOwnerId_consistent, delivered_consistent.
  - destruct (User.is_bot m); [exact Hw|]. cbn [negb]. unfold bind at 1.
    destruct (getMsgTemplate_consistent (Chat.id (chat msg)) w Hw)
      as (s & w' & -> & _ & Hw' & _).
    unfold bind, composeMessage_of.
    destruct (composeMessage markdownEscape s m (Chat.title (chat msg))); [|exact Hw'].
    cbn. now apply delivered_consistent.
Qed.

Lemma memberLeftHandler_consistent (msg : Message) (w : World) :
  store_consistent w ->
  store_consistent (world_of (memberLeftHandler BOT_ID msg w)).
Proof.
  intros Hw. unfold memberLeftHandler.
  destruct (left_chat_member msg) as [m|]; [|exact Hw].
  case_bool_decide; [|exact Hw].
  unfold bind at 1.
  change (removeOwnerId (Chat.id (chat msg)) w)
    with (Done tt (world_of (removeOwnerId (Chat.id (chat msg)) w))).
  now apply removeMsgTemplate_consistent, removeOwnerId_consistent.
Qed.

Lemma changeWelcomeMessageEmptyHandler_consistent (msg : Message) (w : World) :
  store_consistent w ->
  store_consistent (world_of (changeWelcomeMessageEmptyHandler marked msg w)).
Proof.
  intros Hw. unfold changeWelcomeMessageEmptyHandler.
  destruct (isGroup msg); now apply delivered_consistent.
Qed.

Lemma changeWelcomeMessageHandler_consistent (msg : Message) (match1 : string) (w : World) :
  store_consistent w ->
  store_consistent
    (world_of (changeWelcomeMessageHandler markdownEscape marked msg match1 w)).
Proof.
  intros Hw. unfold changeWelcomeMessageHandler.
  destruct (isGroup msg) eqn:Hgroup; cbn [negb]; [|now apply delivered_consistent].
  unfold bind at 1, getOwnerId, storage_getItem.
  destruct (strict_eq _ _); cbn [negb]; [|now apply delivered_consistent].
  destruct (String.length (trim match1) =? 0)%nat eqn:Hlen.
  - now apply changeWelcomeMessageEmptyHandler_consistent.
  - unfold bind at 1.
    change (setMsgTemplate (Chat.id (chat msg)) (trim match1) w)
      with (Done tt (world_of (setMsgTemplate (Chat.id (chat msg)) (trim match1) w))).
    assert (Hset : store_consistent
                     (world_of (setMsgTemplate (Chat.id (chat msg)) (trim match1) w))).
    { apply setMsgTemplate_consistent; [|exact Hw].
      intros E. rewrite E in Hlen. discriminate. }
    unfold bind.
    destruct (composeMessage markdownEscape (trim match1) (from msg)
                (Chat.title (chat msg))); [|exact Hset].
    now apply delivered_consistent.
Qed.
End Reach.


(** * More on the config store *)

Lemma pretty_append_inj (c c' : Z) (suffix : string) :
  pretty c +:+ suffix = pretty c' +:+ suffix -> c = c'.
Proof. intros H. apply append_inj_l in H. now apply (inj pretty). Qed.

(** X4.  The keys of the store keep the chats and the two kinds of record
    apart: different chats have different template keys and different
    owner keys, and no owner key is a template key. *)
Theorem keys_separate (c c' : Z) :
  (getMsgTemplateKey c = getMsgTemplateKey c' -> c = c')
  /\ (getOwnerIdKey c = getOwnerIdKey c' -> c = c')
  /\ getOwnerIdKey c <> getMsgTemplateKey c'.
Proof.
  split; [apply pretty_append_inj|]. split; [apply pretty_append_inj|].
  apply getOwnerIdKey_not_template.
Qed.

Lemma world_eta (w : World) :
  {| storage := storage w; msgTemplates := msgTemplates w; sent := sent w |} = w.
Proof. now destruct w. Qed.

(** X5.  Reading a template twice: the second [getMsgTemplate] returns what
    the first one returned and changes nothing, in every world. *)
Theorem getMsgTemplate_again (chatId : Z) (w : World) :
  exists v w',
    getMsgTemplate chatId w = Done v w'
    /\ getMsgTemplate chatId w' = Done v w'
    /\ msgTemplates w' !! chatId = Some v.
Proof.
  unfold getMsgTemplate, bind, msgTemplates_get, storage_getItem, msgTemplates_set, ret.
  destruct (if_truthy (msgTemplates w !! chatId)) as [x|] eqn:Hc.
  - exists x, w. rewrite Hc. apply if_truthy_Some in Hc as [Hx _]. auto.
  - destruct (if_truthy (storage w !! getMsgTemplateKey chatId)) as [t|] eqn:Hs.
    + apply if_truthy_Some in Hs as [_ Ht].
      eexists t, _. split; [reflexivity|]. cbn [msgTemplates storage].
      rewrite lookup_insert_eq. cbn [if_truthy]. rewrite Ht. auto.
    + eexists _, _. split; [reflexivity|]. cbn [msgTemplates storage].
      rewrite lookup_insert_eq. auto.
Qed.

(** X6.  Removing a template: after [removeMsgTemplate], whatever was set
    before, [getMsgTemplate] returns the default template; removing twice
    is removing once; and removing what is not there changes nothing. *)
Theorem removeMsgTemplate_forgets (chatId : Z) (t : string) (w : World) :
  (exists w',
     getMsgTemplate chatId
       (world_of (removeMsgTemplate chatId (world_of (setMsgTemplate chatId t w))))
     = Done (JStr DEFAULT_MSG_TEMPLATE) w')
  /\ removeMsgTemplate chatId (world_of (removeMsgTemplate chatId w))
     = removeMsgTemplate chatId w
  /\ (msgTemplates w !! chatId = None ->
      storage w !! getMsgTemplateKey chatId = None ->
      removeMsgTemplate chatId w = Done tt w).
Proof.
  split; [|split].
  - eexists. apply getMsgTemplate_missing; cbn; apply lookup_delete_eq.
  - unfold removeMsgTemplate, bind, msgTemplates_delete, storage_removeItem.
    cbn [world_of storage msgTemplates sent]. now rewrite !delete_delete_eq.
  - intros Htab Hst. unfold removeMsgTemplate, bind, msgTemplates_delete,
      storage_removeItem. cbn [storage msgTemplates sent].
    fold (getMsgTemplateKey chatId).
    rewrite (delete_id _ _ Htab), (delete_id _ _ Hst), world_eta. reflexivity.
Qed.

(** * More on the handlers *)

(** * More on the handlers *)

Section HandlerRuns.
Variable markdownEscape : string -> string.
Variable marked : string -> string.
Variable BOT_ID : Z.

Lemma isGroup_message (c : Chat.t) (u : User.t) (j : list User.t) (l : option User.t) :
  Chat.type c ∈ ["group"; "supergroup"] -> isGroup (message c u j l) = true.
Proof. intros H. unfold isGroup. now apply bool_decide_eq_true_2. Qed.

Lemma trim_length (s : string) : trim s <> "" -> (String.length (trim s) =? 0)%nat = false.
Proof. destruct (trim s); [congruence|reflexivity]. Qed.

Lemma composeIntroMessage_returns (owner : User.t) (title : string) :
  is_Some (composeIntroMessage markdownEscape owner (Some title)).
Proof. apply composeMessage_returns. now right. Qed.

Lemma runUpdates_consistent (us : list Update) :
  store_consistent (runUpdates markdownEscape marked BOT_ID us emptyWorld).
Proof.
  unfold runUpdates.
  assert (H : forall w, store_consistent w ->
              store_consistent
                (fold_left (fun w u => world_of (dispatch markdownEscape marked BOT_ID u w))
                   us w)).
  { induction us as [|u us IH]; intros w Hw; [exact Hw|].
    cbn [fold_left]. apply IH. destruct u; cbn [dispatch].
    - now apply newMemberHandler_consistent.
    - now apply memberLeftHandler_consistent.
    - now apply changeWelcomeMessageHandler_consistent.
    - now apply changeWelcomeMessageEmptyHandler_consistent. }
  apply H, store_consistent_empty.
Qed.

Lemma changeWelcomeMessageHandler_owner (msg : Message) (match1 : string) (w : World) :
  isGroup msg = true ->
  storage w !! getOwnerIdKey (Chat.id (chat msg)) = Some (JNum (User.id (from msg))) ->
  trim match1 <> "" ->
  changeWelcomeMessageHandler markdownEscape marked msg match1 w
  = match composeMessage markdownEscape (trim match1) (from msg) (Chat.title (chat msg)) with
    | Some exampleMessage =>
        Done tt
          (delivered (world_of (setMsgTemplate (Chat.id (chat msg)) (trim match1) w))
             (Chat.id (chat msg)) (marked (NEW_MESSAGE_SET +:+ exampleMessage)))
    | None => Thrown (world_of (setMsgTemplate (Chat.id (chat msg)) (trim match1) w))
    end.
Proof.
  intros Hgroup Hown Htrim. unfold changeWelcomeMessageHandler.
  rewrite Hgroup. cbn [negb]. unfold bind at 1, getOwnerId, storage_getItem.
  rewrite Hown.
  assert (Heq : strict_eq (Some (JNum (User.id (from msg))))
                  (Some (JNum (User.id (from msg)))) = true)
    by (unfold strict_eq; now apply bool_decide_eq_true_2).
  rewrite Heq. cbn [negb]. rewrite (trim_length _ Htrim).
  unfold bind.
  change (setMsgTemplate (Chat.id (chat msg)) (trim match1) w)
    with (Done tt (world_of (setMsgTemplate (Chat.id (chat msg)) (trim match1) w))).
  cbv beta iota.
  now destruct (composeMessage markdownEscape (trim match1) (from msg)
                  (Chat.title (chat msg))).
Qed.

(** X7.  The change command of the stored owner, in a group, with a text
    that is not blank: the trimmed text becomes the template in the store
    and in the table, the owner id stays, and the next [getMsgTemplate]
    returns the trimmed text.  When the example composed for the owner is
    a text, one confirmation with it is sent; when composing it throws,
    the handler throws with the template already written and nothing
    sent. *)
Theorem change_by_owner_sets_template (msg : Message) (match1 : string) (w : World) :
  isGroup msg = true ->
  storage w !! getOwnerIdKey (Chat.id (chat msg)) = Some (JNum (User.id (from msg))) ->
  trim match1 <> "" ->
  storage (world_of (changeWelcomeMessageHandler markdownEscape marked msg match1 w))
    !! getMsgTemplateKey (Chat.id (chat msg)) = Some (JStr (trim match1))
  /\ msgTemplates (world_of (changeWelcomeMessageHandler markdownEscape marked msg match1 w))
       !! Chat.id (chat msg) = Some (JStr (trim match1))
  /\ storage (world_of (changeWelcomeMessageHandler markdownEscape marked msg match1 w))
       !! getOwnerIdKey (Chat.id (chat msg)) = Some (JNum (User.id (from msg)))
  /\ getMsgTemplate (Chat.id (chat msg))
       (world_of (changeWelcomeMessageHandler markdownEscape marked msg match1 w))
     = Done (JStr (trim match1))
         (world_of (changeWelcomeMessageHandler markdownEscape marked msg match1 w))
  /\ (forall exampleMessage,
        composeMessage markdownEscape (trim match1) (from msg) (Chat.title (chat msg))
        = Some exampleMessage ->
        changeWelcomeMessageHandler markdownEscape marked msg match1 w
        = Done tt (world_of (changeWelcomeMessageHandler markdownEscape marked msg match1 w))
        /\ sent (world_of (changeWelcomeMessageHandler markdownEscape marked msg match1 w))
           = sent w ++ [(Chat.id (chat msg), marked (NEW_MESSAGE_SET +:+ exampleMessage))])
  /\ (composeMessage markdownEscape (trim match1) (from msg) (Chat.title (chat msg)) = None ->
      changeWelcomeMessageHandler markdownEscape marked msg match1 w
      = Thrown (world_of (setMsgTemplate (Chat.id (chat msg)) (trim match1) w))
      /\ sent (world_of (changeWelcomeMessageHandler markdownEscape marked msg match1 w))
         = sent w).
Proof.
  intros Hgroup Hown Htrim.
  rewrite (changeWelcomeMessageHandler_owner msg match1 w Hgroup Hown Htrim).
  assert (Hne : getMsgTemplateKey (Chat.id (chat msg)) <> getOwnerIdKey (Chat.id (chat msg)))
    by (intros E; symmetry in E; now apply getOwnerIdKey_not_template in E).
  destruct (composeMessage markdownEscape (trim match1) (from msg) (Chat.title (chat msg)))
    as [example|];
    cbn [delivered world_of setMsgTemplate bind storage_setItem msgTemplates_set
           storage msgTemplates sent];
    (split; [apply lookup_insert_eq|]); (split; [apply lookup_insert_eq|]);
    (split; [rewrite lookup_insert_ne; [exact Hown | exact Hne]|]);
    (split;
     [unfold getMsgTemplate, bind, msgTemplates_get;
      cbn [delivered world_of setMsgTemplate bind storage_setItem msgTemplates_set
             storage msgTemplates sent];
      rewrite lookup_insert_eq; cbn [if_truthy]; rewrite (nonempty_truthy _ Htrim);
      reflexivity|]).
  - split; [|discriminate]. intros e [= <-]. split; reflexivity.
  - split; [discriminate|]. intros _. split; reflexivity.
Qed.

(** X8.  Outside a group both forms of the change command only answer
    with the notice to add the bot to a group: whoever sends them and
    whatever the text, the store and the template table stay as they
    are. *)
Theorem change_outside_group_redirects (msg : Message) (match1 : string) (w : World) :
  isGroup msg = false ->
  changeWelcomeMessageHandler markdownEscape marked msg match1 w
  = Done tt (delivered w (Chat.id (chat msg)) (marked "*Add me to a group first!*"))
  /\ changeWelcomeMessageEmptyHandler marked msg w
     = Done tt (delivered w (Chat.id (chat msg)) (marked "*Add me to a group first!*"))
  /\ storage (delivered w (Chat.id (chat msg)) (marked "*Add me to a group first!*"))
     = storage w
  /\ msgTemplates (delivered w (Chat.id (chat msg)) (marked "*Add me to a group first!*"))
     = msgTemplates w.
Proof.
  intros Hgroup. unfold changeWelcomeMessageHandler, changeWelcomeMessageEmptyHandler.
  rewrite Hgroup. repeat split.
Qed.

Lemma newMemberHandler_bot (c : Chat.t) (u b : User.t) (others : list User.t)
    (l : option User.t) (w : World) :
  User.id b = BOT_ID ->
  newMemberHandler markdownEscape marked BOT_ID (message c u (b :: others) l) w
  = match composeIntroMessage markdownEscape u (Chat.title c) with
    | Some intro =>
        Done tt
          {| storage := <[getOwnerIdKey (Chat.id c) := JNum (User.id u)]> (storage w);
             msgTemplates := msgTemplates w;
             sent := sent w ++ [(Chat.id c, marked intro)] |}
    | None => Thrown w
    end.
Proof.
  intros Hb. unfold newMemberHandler, message.
  cbn [new_chat_members lookup list_lookup chat from].
  rewrite bool_decide_eq_true_2 by exact Hb. unfold bind at 1.
  now destruct (composeIntroMessage markdownEscape u (Chat.title c)).
Qed.

Lemma newMemberHandler_member (c : Chat.t) (u n : User.t) (others : list User.t)
    (l : option User.t) (w w1 : World) (template : string) :
  User.id n <> BOT_ID -> User.is_bot n = false ->
  getMsgTemplate (Chat.id c) w = Done (JStr template) w1 ->
  newMemberHandler markdownEscape marked BOT_ID (message c u (n :: others) l) w
  = match composeMessage markdownEscape template n (Chat.title c) with
    | Some text => Done tt (delivered w1 (Chat.id c) (marked text))
    | None => Thrown w1
    end.
Proof.
  intros Hn Hbot Hget. unfold newMemberHandler, message.
  cbn [new_chat_members lookup list_lookup chat from].
  rewrite bool_decide_eq_false_2 by exact Hn. rewrite Hbot. cbn [negb].
  unfold bind at 1. rewrite Hget. unfold bind, composeMessage_of.
  now destruct (composeMessage markdownEscape template n (Chat.title c)).
Qed.

(** X9.  From any world: the bot is added to a group that has a title by
    a member, that member sends the change command with a text that is
    not blank, and then a member who is not a bot joins.  The newcomer is
    welcomed with the trimmed text of the command, composed for the
    newcomer (whether or not the example for the owner could be
    composed); when composing the welcome throws, the handler throws and
    nothing is sent. *)
Theorem added_changed_joined (c : Chat.t) (u u' b n : User.t)
    (others others' j : list User.t) (l l' l'' : option User.t)
    (text : string) (w : World) :
  Chat.type c ∈ ["group"; "supergroup"] ->
  Chat.title c <> None ->
  User.id b = BOT_ID ->
  User.id n <> BOT_ID -> User.is_bot n = false ->
  trim text <> "" ->
  newMemberHandler markdownEscape marked BOT_ID (message c u' (n :: others') l'')
    (runUpdates markdownEscape marked BOT_ID
       [NewChatMembers (message c u (b :: others) l);
        ChangeWelcomeMessage (message c u j l') text] w)
  = match composeMessage markdownEscape (trim text) n (Chat.title c) with
    | Some welcome =>
        Done tt
          (delivered
             (runUpdates markdownEscape marked BOT_ID
                [NewChatMembers (message c u (b :: others) l);
                 ChangeWelcomeMessage (message c u j l') text] w)
             (Chat.id c) (marked welcome))
    | None =>
        Thrown
          (runUpdates markdownEscape marked BOT_ID
             [NewChatMembers (message c u (b :: others) l);
              ChangeWelcomeMessage (message c u j l') text] w)
    end.
Proof.
  intros Hc Htitle Hb Hn Hbot Htrim.
  unfold runUpdates. cbn [fold_left dispatch].
  rewrite (newMemberHandler_bot c u b others l w Hb).
  assert (Hintro : is_Some (composeIntroMessage markdownEscape u (Chat.title c))).
  { destruct (Chat.title c); [apply composeIntroMessage_returns | congruence]. }
  destruct Hintro as [intro ->]. cbn [world_of].
  rewrite changeWelcomeMessageHandler_owner;
    [| now apply isGroup_message | apply lookup_insert_eq | exact Htrim].
  cbn [message chat from].
  apply newMemberHandler_member; [exact Hn | exact Hbot |].
  unfold getMsgTemplate, bind, msgTemplates_get.
  destruct (composeMessage markdownEscape (trim text) u (Chat.title c));
    cbn [delivered setMsgTemplate bind storage_setItem msgTemplates_set world_of
           msgTemplates storage sent message chat];
    rewrite lookup_insert_eq; cbn [if_truthy]; rewrite (nonempty_truthy _ Htrim);
    reflexivity.
Qed.

(** X10.  After the bot has left a group, the change command with a text
    is refused with the permission error whoever sends it, the former
    owner included, and a member who joins is welcomed with the default
    template, which can be composed for every member when the group has a
    title (and when it cannot, nothing is sent). *)
Theorem after_bot_left (c : Chat.t) (u u' u'' b n : User.t) (j j' others : list User.t)
    (l l' : option User.t) (text : string) (w : World) :
  Chat.type c ∈ ["group"; "supergroup"] ->
  User.id b = BOT_ID ->
  User.id n <> BOT_ID -> User.is_bot n = false ->
  changeWelcomeMessageHandler markdownEscape marked (message c u' j' l) text
    (world_of (memberLeftHandler BOT_ID (message c u j (Some b)) w))
  = Done tt
      (delivered (world_of (memberLeftHandler BOT_ID (message c u j (Some b)) w))
         (Chat.id c)
         (marked (composeErrorMessage
            "Only the user who introduced me to this group can change the message!")))
  /\ sent (world_of (newMemberHandler markdownEscape marked BOT_ID
                       (message c u'' (n :: others) l')
                       (world_of (memberLeftHandler BOT_ID (message c u j (Some b)) w))))
     = sent w ++
       match composeMessage markdownEscape DEFAULT_MSG_TEMPLATE n (Chat.title c) with
       | Some welcome => [(Chat.id c, marked welcome)]
       | None => []
       end
  /\ (Chat.title c <> None ->
      is_Some (composeMessage markdownEscape DEFAULT_MSG_TEMPLATE n (Chat.title c))).
Proof.
  intros Hc Hb Hn Hbot.
  assert (Hleft : memberLeftHandler BOT_ID (message c u j (Some b)) w
           = Done tt
               {| storage := delete (getMsgTemplateKey (Chat.id c))
                               (delete (getOwnerIdKey (Chat.id c)) (storage w));
                  msgTemplates := delete (Chat.id c) (msgTemplates w);
                  sent := sent w |}).
  { unfold memberLeftHandler, message. cbn [left_chat_member chat].
    rewrite bool_decide_eq_true_2 by exact Hb. reflexivity. }
  rewrite Hleft. cbn [world_of]. split; [|split].
  - apply changeWelcomeMessageHandler_denied; [now apply isGroup_message|].
    cbn [storage message chat]. rewrite lookup_delete.
    case_decide; [discriminate|]. rewrite lookup_delete_eq. discriminate.
  - rewrite (newMemberHandler_member c u'' n others l' _ _ _ Hn Hbot
               (getMsgTemplate_missing (Chat.id c) _
                  (lookup_delete_eq _ _) (lookup_delete_eq _ _))).
    destruct (composeMessage markdownEscape DEFAULT_MSG_TEMPLATE n (Chat.title c));
      cbn [world_of delivered sent]; [reflexivity | now rewrite app_nil_r].
  - intros Htitle. destruct (Chat.title c) as [title|]; [|congruence].
    apply composeMessage_returns. now right.
Qed.

Lemma getOwnerIdKey_inj (c c' : Z) : getOwnerIdKey c = getOwnerIdKey c' -> c = c'.
Proof. apply pretty_append_inj. Qed.

Lemma getMsgTemplate_frame (c : Z) (w : World) :
  exists v w',
    getMsgTemplate c w = Done v w'
    /\ storage w' = storage w /\ sent w' = sent w
    /\ forall c', c' <> c -> msgTemplates w' !! c' = msgTemplates w !! c'.
Proof.
  unfold getMsgTemplate, bind, msgTemplates_get, storage_getItem, msgTemplates_set, ret.
  destruct (if_truthy (msgTemplates w !! c)) as [x|].
  - exists x, w. auto.
  - destruct (if_truthy (storage w !! getMsgTemplateKey c)) as [t|];
      eexists _, _; (split; [reflexivity|]); cbn; repeat split;
      intros c' Hc'; now apply lookup_insert_ne.
Qed.

(** What the new-member handler does for a member that is not a bot:
    it reads the template and then either sends one message or throws. *)
Lemma newMemberHandler_welcome (msg : Message) (m : User.t) (w : World) :
  new_chat_members msg !! 0%nat = Some m ->
  User.id m <> BOT_ID -> User.is_bot m = false ->
  exists v w1,
    getMsgTemplate (Chat.id (chat msg)) w = Done v w1
    /\ storage w1 = storage w /\ sent w1 = sent w
    /\ (forall c', c' <> Chat.id (chat msg) -> msgTemplates w1 !! c' = msgTemplates w !! c')
    /\ (newMemberHandler markdownEscape marked BOT_ID msg w = Thrown w1
        \/ exists text,
             newMemberHandler markdownEscape marked BOT_ID msg w
             = Done tt (delivered w1 (Chat.id (chat msg)) text)).
Proof.
  intros Hm Hne Hbot.
  destruct (getMsgTemplate_frame (Chat.id (chat msg)) w)
    as (v & w1 & Hget & Hst & Hsent & Htab).
  exists v, w1. split; [exact Hget|]. split; [exact Hst|]. split; [exact Hsent|].
  split; [exact Htab|].
  unfold newMemberHandler. rewrite Hm.
  rewrite bool_decide_eq_false_2 by exact Hne. rewrite Hbot. cbn [negb].
  unfold bind. rewrite Hget. unfold composeMessage_of.
  destruct v as [z|t]; [now left|].
  destruct (composeMessage markdownEscape t m (Chat.title (chat msg)));
    [right; eexists; reflexivity | now left].
Qed.

(** X11.  The chats are kept apart: whatever update is handled, the
    template and the owner id stored for any other chat, and the entry of
    any other chat in the template table, stay as they are. *)
Theorem other_chats_untouched (u : Update) (w : World) (c' : Z) :
  c' <> chat_of u ->
  storage (world_of (dispatch markdownEscape marked BOT_ID u w)) !! getMsgTemplateKey c'
  = storage w !! getMsgTemplateKey c'
  /\ storage (world_of (dispatch markdownEscape marked BOT_ID u w)) !! getOwnerIdKey c'
     = storage w !! getOwnerIdKey c'
  /\ msgTemplates (world_of (dispatch markdownEscape marked BOT_ID u w)) !! c'
     = msgTemplates w !! c'.
Proof.
  intros Hc'.
  assert (Ht : forall c, c' <> c -> getMsgTemplateKey c <> getMsgTemplateKey c')
    by (intros c Hc E; apply getMsgTemplateKey_inj in E; congruence).
  assert (Ho : forall c, c' <> c -> getOwnerIdKey c <> getOwnerIdKey c')
    by (intros c Hc E; apply getOwnerIdKey_inj in E; congruence).
  assert (Hot : forall c, getOwnerIdKey c <> getMsgTemplateKey c')
    by (intros c; apply getOwnerIdKey_not_template).
  assert (Hto : forall c, getMsgTemplateKey c <> getOwnerIdKey c')
    by (intros c E; symmetry in E; now apply getOwnerIdKey_not_template in E).
  destruct u as [msg | msg | msg match1 | msg]; cbn [chat_of dispatch] in *.
  - destruct (new_chat_members msg !! 0%nat) as [m|] eqn:Hm;
      [|unfold newMemberHandler; rewrite Hm; repeat split; reflexivity].
    destruct (decide (User.id m = BOT_ID)) as [Hb | Hb].
    + unfold newMemberHandler. rewrite Hm.
      rewrite bool_decide_eq_true_2 by exact Hb. unfold bind at 1.
      destruct (composeIntroMessage markdownEscape (from msg) (Chat.title (chat msg)));
        [|repeat split; reflexivity].
      cbn [evaluated ret world_of bind sendMessage bot_sendMessage setOwnerId
             storage_setItem delivered storage msgTemplates].
      rewrite !lookup_insert_ne by auto. repeat split; reflexivity.
    + destruct (User.is_bot m) eqn:Hbot.
      * unfold newMemberHandler. rewrite Hm.
        rewrite bool_decide_eq_false_2 by exact Hb. rewrite Hbot.
        repeat split; reflexivity.
      * destruct (newMemberHandler_welcome msg m w Hm Hb Hbot)
          as (v & w1 & _ & Hst & _ & Htab & [-> | [text ->]]);
          cbn [world_of delivered storage msgTemplates];
          rewrite Hst, (Htab c' Hc'); repeat split; reflexivity.
  - unfold memberLeftHandler.
    destruct (left_chat_member msg) as [m|]; [|repeat split; reflexivity].
    case_bool_decide; [|repeat split; reflexivity].
    cbn [world_of bind removeOwnerId removeMsgTemplate storage_removeItem
           msgTemplates_delete storage msgTemplates].
    fold (getMsgTemplateKey (Chat.id (chat msg))).
    rewrite !lookup_delete_ne by auto. repeat split; reflexivity.
  - unfold changeWelcomeMessageHandler, changeWelcomeMessageEmptyHandler.
    destruct (isGroup msg); cbn [negb]; [|repeat split; reflexivity].
    unfold bind, getOwnerId, storage_getItem.
    destruct (strict_eq _ _); cbn [negb]; [|repeat split; reflexivity].
    destruct (String.length (trim match1) =? 0)%nat; [repeat split; reflexivity|].
    destruct (composeMessage markdownEscape (trim match1) (from msg)
                (Chat.title (chat msg)));
      cbn [evaluated ret throw world_of setMsgTemplate bind storage_setItem
             msgTemplates_set sendMessage bot_sendMessage delivered storage msgTemplates];
      rewrite !lookup_insert_ne by auto; repeat split; reflexivity.
  - unfold changeWelcomeMessageEmptyHandler.
    destruct (isGroup msg); repeat split; reflexivity.
Qed.

(** X12.  The owner id is written only when the bot joins or leaves: the
    two forms of the change command change no owner id, and the arrival
    of anyone but the bot, like the departure of anyone but the bot,
    leaves the whole store as it is. *)
Theorem owner_changes_only_with_bot (msg : Message) (match1 : string) (w : World) :
  (forall c,
     storage (world_of (changeWelcomeMessageHandler markdownEscape marked msg match1 w))
       !! getOwnerIdKey c = storage w !! getOwnerIdKey c)
  /\ storage (world_of (changeWelcomeMessageEmptyHandler marked msg w)) = storage w
  /\ (forall m, new_chat_members msg !! 0%nat = Some m -> User.id m <> BOT_ID ->
       storage (world_of (newMemberHandler markdownEscape marked BOT_ID msg w))
       = storage w)
  /\ (forall m, left_chat_member msg = Some m -> User.id m <> BOT_ID ->
       memberLeftHandler BOT_ID msg w = Done tt w).
Proof.
  split; [|split; [|split]].
  - intros c. unfold changeWelcomeMessageHandler, changeWelcomeMessageEmptyHandler.
    destruct (isGroup msg); cbn [negb]; [|reflexivity].
    unfold bind, getOwnerId, storage_getItem.
    destruct (strict_eq _ _); cbn [negb]; [|reflexivity].
    destruct (String.length (trim match1) =? 0)%nat; [reflexivity|].
    destruct (composeMessage markdownEscape (trim match1) (from msg)
                (Chat.title (chat msg)));
      cbn [evaluated ret throw world_of setMsgTemplate bind storage_setItem
             msgTemplates_set sendMessage bot_sendMessage delivered storage msgTemplates];
      apply lookup_insert_ne; intros E; symmetry in E;
      now apply getOwnerIdKey_not_template in E.
  - unfold changeWelcomeMessageEmptyHandler. now destruct (isGroup msg).
  - intros m Hm Hne. destruct (User.is_bot m) eqn:Hbot.
    + unfold newMemberHandler. rewrite Hm.
      rewrite bool_decide_eq_false_2 by exact Hne. now rewrite Hbot.
    + destruct (newMemberHandler_welcome msg m w Hm Hne Hbot)
        as (v & w1 & _ & Hst & _ & _ & [-> | [text ->]]); exact Hst.
  - intros m Hm Hne. unfold memberLeftHandler. rewrite Hm.
    now rewrite bool_decide_eq_false_2 by exact Hne.
Qed.

(** X13.  A handled update sends at most one message, and sends it to the
    chat the update came from; what was sent before stays in place. *)
Theorem at_most_one_message (u : Update) (w : World) :
  sent (world_of (dispatch markdownEscape marked BOT_ID u w)) = sent w
  \/ exists text,
       sent (world_of (dispatch markdownEscape marked BOT_ID u w))
       = sent w ++ [(chat_of u, text)].
Proof.
  destruct u as [msg | msg | msg match1 | msg]; cbn [chat_of dispatch].
  - destruct (new_chat_members msg !! 0%nat) as [m|] eqn:Hm;
      [|unfold newMemberHandler; rewrite Hm; now left].
    destruct (decide (User.id m = BOT_ID)) as [Hb | Hb].
    + unfold newMemberHandler. rewrite Hm.
      rewrite bool_decide_eq_true_2 by exact Hb. unfold bind at 1.
      destruct (composeIntroMessage markdownEscape (from msg) (Chat.title (chat msg)));
        [right; eexists; reflexivity | now left].
    + destruct (User.is_bot m) eqn:Hbot.
      * unfold newMemberHandler. rewrite Hm.
        rewrite bool_decide_eq_false_2 by exact Hb. rewrite Hbot. now left.
      * destruct (newMemberHandler_welcome msg m w Hm Hb Hbot)
          as (v & w1 & _ & _ & Hsent & _ & [-> | [text ->]]);
          cbn [world_of delivered sent]; rewrite Hsent.
        -- now left.
        -- right. eexists. reflexivity.
  - unfold memberLeftHandler.
    destruct (left_chat_member msg) as [m|]; [|now left].
    case_bool_decide; now left.
  - unfold changeWelcomeMessageHandler, changeWelcomeMessageEmptyHandler.
    destruct (isGroup msg); cbn [negb]; [|right; eexists; reflexivity].
    unfold bind, getOwnerId, storage_getItem.
    destruct (strict_eq _ _); cbn [negb]; [|right; eexists; reflexivity].
    destruct (String.length (trim match1) =? 0)%nat; [right; eexists; reflexivity|].
    destruct (composeMessage markdownEscape (trim match1) (from msg)
                (Chat.title (chat msg)));
      [right; eexists; reflexivity | now left].
  - right. unfold changeWelcomeMessageEmptyHandler.
    destruct (isGroup msg); eexists; reflexivity.
Qed.

(** X14.  In every world the handlers reach from an empty store,
    [getMsgTemplate] is the plain read-through: it returns a non-empty
    text, which is the entry of the template table when there is one
    (and then nothing changes), else the value stored under the template
    key when there is one, else the default template; in the last two
    cases that text is entered into the table, and the store is never
    written. *)
Theorem reachable_read_through (us : list Update) (c : Z) :
  exists s w',
    getMsgTemplate c (runUpdates markdownEscape marked BOT_ID us emptyWorld)
    = Done (JStr s) w'
    /\ s <> ""
    /\ storage w' = storage (runUpdates markdownEscape marked BOT_ID us emptyWorld)
    /\ match msgTemplates (runUpdates markdownEscape marked BOT_ID us emptyWorld) !! c with
       | Some v =>
           v = JStr s /\ w' = runUpdates markdownEscape marked BOT_ID us emptyWorld
       | None =>
           msgTemplates w'
           = <[c := JStr s]>
               (msgTemplates (runUpdates markdownEscape marked BOT_ID us emptyWorld))
           /\ match storage (runUpdates markdownEscape marked BOT_ID us emptyWorld)
                      !! getMsgTemplateKey c with
              | Some t => t = JStr s
              | None => s = DEFAULT_MSG_TEMPLATE
              end
       end.
Proof.
  destruct (getMsgTemplate_consistent c _ (runUpdates_consistent us))
    as (s & w' & Hget & Hs & _ & Hst & _ & Hcases).
  exists s, w'. auto.
Qed.

(** X15.  Whatever updates arrive, starting from an empty store: the
    template table never departs from the store, and neither holds an
    empty template. *)
Theorem reachable_consistent (us : list Update) :
  store_consistent (runUpdates markdownEscape marked BOT_ID us emptyWorld).
Proof. exact (runUpdates_consistent us). Qed.

(** X16.  When a handler throws, it has sent nothing.  The change command
    throws only when the example cannot be composed, with the trimmed
    text already written as the template of the chat; the other handlers
    throw with the store as it was. *)
Theorem thrown_leaves_store (u : Update) (w w' : World) :
  dispatch markdownEscape marked BOT_ID u w = Thrown w' ->
  sent w' = sent w
  /\ match u with
     | ChangeWelcomeMessage msg match1 =>
         w' = world_of (setMsgTemplate (Chat.id (chat msg)) (trim match1) w)
         /\ composeMessage markdownEscape (trim match1) (from msg) (Chat.title (chat msg))
            = None
     | _ => storage w' = storage w
     end.
Proof.
  destruct u as [msg | msg | msg match1 | msg]; cbn [dispatch].
  - destruct (new_chat_members msg !! 0%nat) as [m|] eqn:Hm;
      [|unfold newMemberHandler; rewrite Hm; intros [= <-]; now split].
    destruct (decide (User.id m = BOT_ID)) as [Hb | Hb].
    + unfold newMemberHandler. rewrite Hm.
      rewrite bool_decide_eq_true_2 by exact Hb. unfold bind at 1.
      destruct (composeIntroMessage markdownEscape (from msg) (Chat.title (chat msg)));
        [discriminate|]. intros [= <-]. now split.
    + destruct (User.is_bot m) eqn:Hbot.
      * unfold newMemberHandler. rewrite Hm.
        rewrite bool_decide_eq_false_2 by exact Hb. rewrite Hbot. discriminate.
      * destruct (newMemberHandler_welcome msg m w Hm Hb Hbot)
          as (v & w1 & _ & Hst & Hsent & _ & [-> | [text ->]]); [|discriminate].
        intros [= <-]. now split.
  - unfold memberLeftHandler.
    destruct (left_chat_member msg) as [m|]; [|intros [= <-]; now split].
    case_bool_decide; discriminate.
  - unfold changeWelcomeMessageHandler, changeWelcomeMessageEmptyHandler.
    destruct (isGroup msg); cbn [negb]; [|discriminate].
    unfold bind, getOwnerId, storage_getItem.
    destruct (strict_eq _ _); cbn [negb]; [|discriminate].
    destruct (String.length (trim match1) =? 0)%nat; [discriminate|].
    destruct (composeMessage markdownEscape (trim match1) (from msg)
                (Chat.title (chat msg))); [discriminate|].
    intros [= <-]. repeat split.
  - unfold changeWelcomeMessageEmptyHandler. destruct (isGroup msg); discriminate.
Qed.

(** X17.  In the worlds the handlers reach from an empty store no handler
    throws on an update that the platform has filled in and whose member
    has a username: every such update is handled to its end. *)
Theorem reachable_never_throws (us : list Update) (u : Update) :
  update_filled u -> update_named u ->
  exists w',
    dispatch markdownEscape marked BOT_ID u
      (runUpdates markdownEscape marked BOT_ID us emptyWorld) = Done tt w'.
Proof.
  intros Hu Hnamed.
  pose proof (runUpdates_consistent us) as Hw.
  generalize dependent (runUpdates markdownEscape marked BOT_ID us emptyWorld).
  intros w Hw.
  destruct u as [msg | msg | msg match1 | msg];
    cbn [dispatch update_filled update_named] in *.
  - destruct Hu as [Hmembers Htitle].
    destruct (Chat.title (chat msg)) as [title|] eqn:Et; [|congruence].
    unfold newMemberHandler. rewrite Et.
    destruct (new_chat_members msg) as [|m rest]; [congruence|].
    cbn [lookup list_lookup] in *.
    case_bool_decide.
    + unfold bind at 1.
      destruct (composeIntroMessage_returns (from msg) title) as [intro ->].
      eexists. reflexivity.
    + destruct (User.is_bot m); [eexists; reflexivity|]. cbn [negb]. unfold bind.
      destruct (getMsgTemplate_consistent (Chat.id (chat msg)) w Hw)
        as (s & w1 & -> & _).
      unfold composeMessage_of.
      destruct (composeMessage_returns markdownEscape m s title
                  (or_introl (Hnamed m eq_refl))) as [text ->].
      eexists. reflexivity.
  - unfold memberLeftHandler.
    destruct (left_chat_member msg) as [m|]; [|congruence].
    case_bool_decide; eexists; reflexivity.
  - unfold changeWelcomeMessageHandler, changeWelcomeMessageEmptyHandler.
    destruct (isGroup msg); cbn [negb]; [|eexists; reflexivity].
    unfold bind, getOwnerId, storage_getItem.
    destruct (strict_eq _ _); cbn [negb]; [|eexists; reflexivity].
    destruct (String.length (trim match1) =? 0)%nat; [eexists; reflexivity|].
    destruct (Chat.title (chat msg)) as [title|]; [|now destruct Hu].
    destruct (composeMessage_returns markdownEscape (from msg) (trim match1) title
                (or_introl Hnamed)) as [example ->].
    eexists. reflexivity.
  - unfold changeWelcomeMessageEmptyHandler.
    destruct (isGroup msg); eexists; reflexivity.
Qed.
End HandlerRuns.

(** * The trimmed template *)

Lemma rev_app_append (s acc : string) :
  String.rev_app s acc = String.rev_app s "" +:+ acc.
Proof.
  revert acc. induction s as [|a s IH]; intros acc; [reflexivity|].
  cbn [String.rev_app]. rewrite (IH (String a acc)), (IH (String a "")).
  now rewrite append_assoc.
Qed.

Lemma rev_cons (a : ascii) (s : string) :
  String.rev (String a s) = String.rev s +:+ String a "".
Proof. unfold String.rev. cbn [String.rev_app]. apply rev_app_append. Qed.

Lemma rev_append (a b : string) :
  String.rev (a +:+ b) = String.rev b +:+ String.rev a.
Proof.
  induction a as [|x a IH].
  - change ("" +:+ b) with b. now rewrite append_nil_r.
  - change (String x a +:+ b) with (String x (a +:+ b)).
    now rewrite !rev_cons, IH, append_assoc.
Qed.

Lemma rev_involutive (s : string) : String.rev (String.rev s) = s.
Proof.
  induction s as [|x s IH]; [reflexivity|].
  now rewrite rev_cons, rev_append, IH.
Qed.

Lemma prefix_append_l (w t b : string) :
  String.prefix w t = true -> String.prefix w (t +:+ b) = true.
Proof.
  revert t. induction w as [|x w IH]; intros t H; [apply prefix_nil|].
  destruct t as [|y t]; [discriminate|].
  change (String y t +:+ b) with (String y (t +:+ b)).
  rewrite prefix_cons in H |- *. destruct (ascii_dec x y); [|discriminate].
  now apply IH.
Qed.

Lemma trimStart_from_suffix (ws : list string) (n : nat) (s : string) :
  exists a, s = a +:+ trimStart_from ws n s.
Proof.
  revert n. induction s as [|c s IH]; intros n; [now exists ""|].
  cbn [trimStart_from]. destruct n as [|n].
  - destruct (List.find _ ws) as [w|]; [|now exists ""].
    destruct (IH (pred (String.length w))) as [a Ha].
    exists (String c a). rewrite Ha at 1. reflexivity.
  - destruct (IH n) as [a Ha].
    exists (String c a). rewrite Ha at 1. reflexivity.
Qed.

Lemma trimStart_from_clean (ws : list string) (n : nat) (s : string) :
  trimStart_from ws n s = ""
  \/ List.find (fun w => String.prefix w (trimStart_from ws n s)) ws = None.
Proof.
  revert n. induction s as [|c s IH]; intros n; [now left|].
  cbn [trimStart_from]. destruct n as [|n]; [|apply IH].
  destruct (List.find _ ws) as [w|] eqn:Hfind; [apply IH|now right].
Qed.

Lemma whiteSpace_not_empty (w : string) :
  w ∈ whiteSpace -> String.prefix w "" = false /\ String.prefix (String.rev w) "" = false.
Proof.
  intros Hin. unfold whiteSpace in Hin. cbn in Hin.
  repeat (apply elem_of_cons in Hin as [-> | Hin]);
    try (apply elem_of_nil in Hin; contradiction); split; reflexivity.
Qed.

(** A trimmed text neither begins nor ends with white space. *)
Lemma trim_is_trimmed (s w : string) :
  w ∈ whiteSpace ->
  startsWith (trim s) w = false /\ endsWith (trim s) w = false.
Proof.
  intros Hw. unfold startsWith, endsWith, trim, trimEnd.
  set (r := trimStart s).
  set (x := trimStart_from (map String.rev whiteSpace) 0 (String.rev r)).
  destruct (whiteSpace_not_empty w Hw) as [Hw1 Hw2].
  assert (Hend : String.prefix (String.rev w) x = false).
  { destruct (trimStart_from_clean (map String.rev whiteSpace) 0 (String.rev r))
      as [E | E]; fold x in E.
    - now rewrite E.
    - apply (find_none _ _ E (String.rev w)). apply in_map.
      now apply list_elem_of_In. }
  rewrite rev_involutive. split; [|exact Hend].
  destruct (String.prefix w (String.rev x)) eqn:Hp; [|reflexivity].
  destruct (trimStart_from_suffix (map String.rev whiteSpace) 0 (String.rev r))
    as [a Ha]; fold x in Ha.
  apply (f_equal String.rev) in Ha. rewrite rev_involutive, rev_append in Ha.
  assert (Hr : String.prefix w r = true) by (rewrite Ha; now apply prefix_append_l).
  destruct (trimStart_from_clean whiteSpace 0 s) as [E | E];
    fold (trimStart s) in E; fold r in E.
  - rewrite E in Hr. congruence.
  - pose proof (find_none _ _ E w) as Hn. cbn beta in Hn.
    rewrite Hn in Hr; [discriminate|]. now apply list_elem_of_In.
Qed.

(** X18.  The template that the change command of the owner stores is
    not empty and neither begins nor ends with white space. *)
Theorem stored_template_is_trimmed (markdownEscape : string -> string)
    (marked : string -> string) (msg : Message) (match1 : string) (w : World) :
  isGroup msg = true ->
  storage w !! getOwnerIdKey (Chat.id (chat msg)) = Some (JNum (User.id (from msg))) ->
  trim match1 <> "" ->
  exists t,
    storage (world_of (changeWelcomeMessageHandler markdownEscape marked msg match1 w))
      !! getMsgTemplateKey (Chat.id (chat msg)) = Some (JStr t)
    /\ t <> ""
    /\ forall u, u ∈ whiteSpace -> startsWith t u = false /\ endsWith t u = false.
Proof.
  intros Hgroup Hown Htrim. exists (trim match1).
  rewrite (changeWelcomeMessageHandler_owner markdownEscape marked msg match1 w
             Hgroup Hown Htrim).
  split.
  - destruct (composeMessage markdownEscape (trim match1) (from msg)
                (Chat.title (chat msg))); apply lookup_insert_eq.
  - split; [exact Htrim|]. intros u Hu. now apply trim_is_trimmed.
Qed.

(** * The theorems at concrete inputs *)



Lemma sample_text_not_blank : trim " Welcome $firstname! " <> "".
Proof. vm_compute. discriminate. Qed.

Lemma hub_is_group : Chat.type hub ∈ ["group"; "supergroup"].
Proof. apply list_elem_of_further, list_elem_of_here. Qed.

Example samplePieces_template :
  template_of samplePieces
  = "Hi $firstname (($safeusername), this is $groupname. Write $$username for your handle $username.".
Proof. reflexivity. Qed.

Example samplePieces_rendered :
  rendered sampleEscape bob (Some "Startup_Hub") samplePieces
  = Some "Hi Bob ((@bob), this is Startup\_Hub. Write $username for your handle @bob."
  /\ rendered sampleEscape ana (Some "Startup_Hub") samplePieces = None.
Proof. split; reflexivity. Qed.



Lemma C4_witness :
  composeMessage sampleEscape "Welcome, $user! It costs $5." bob (Some "G")
  = Some "Welcome, $user! It costs $5.".
Proof.
  refine (proj1 (C4_placeholder_free_unchanged sampleEscape "Welcome, $user! It costs $5."
                   bob ana (Some "G") None _)).
  unfold placeholderNames. repeat constructor.
Defined.

Lemma C6_witness :
  exists w1,
    setMsgTemplate (-1001) "Welcome $firstname!" configuredWorld = Done tt w1
    /\ msgTemplates w1 !! (-1001) = Some (JStr "Welcome $firstname!")
    /\ storage w1 !! getMsgTemplateKey (-1001) = Some (JStr "Welcome $firstname!")
    /\ getMsgTemplate (-1001) w1 = Done (JStr "Welcome $firstname!") w1.
Proof.
  refine (C6_setMsgTemplate_mirror_agrees (-1001) "Welcome $firstname!" configuredWorld _).
  discriminate.
Defined.

Lemma C7_witness :
  exists w',
    changeWelcomeMessageHandler sampleEscape sampleMarked (event bob [] None)
      "Buy my coins" configuredWorld = Done tt w'
    /\ storage w' = storage configuredWorld
    /\ msgTemplates w' = msgTemplates configuredWorld
    /\ sent w' = sent configuredWorld ++
         [(Chat.id (chat (event bob [] None)),
           sampleMarked (composeErrorMessage
             "Only the user who introduced me to this group can change the message!"))].
Proof.
  refine (proj1 (C7_non_owner_is_denied sampleEscape sampleMarked (event bob [] None)
                   "Buy my coins" configuredWorld _ _)).
  - reflexivity.
  - vm_compute. discriminate.
Defined.

Lemma C8_witness :
  changeWelcomeMessageEmptyHandler sampleMarked (event ana [] None) configuredWorld
  = Done tt (delivered configuredWorld (Chat.id (chat (event ana [] None)))
       (sampleMarked (composeErrorMessage "You can't set an empty message!"))).
Proof.
  refine (proj1 (C8_empty_message_is_rejected sampleEscape sampleMarked (event ana [] None)
                   [" "; bytes [10]; bytes [194; 160]]%nat configuredWorld _ _)).
  - reflexivity.
  - repeat constructor; vm_compute; set_solver.
Defined.

Lemma C9_witness :
  exists w',
    memberLeftHandler 42 (event ana [] (Some theBot)) configuredWorld = Done tt w'
    /\ storage w' !! getOwnerIdKey (Chat.id (chat (event ana [] (Some theBot)))) = None
    /\ storage w' !! getMsgTemplateKey (Chat.id (chat (event ana [] (Some theBot)))) = None
    /\ msgTemplates w' !! Chat.id (chat (event ana [] (Some theBot))) = None
    /\ sent w' = sent configuredWorld
    /\ getOwnerId (Chat.id (chat (event ana [] (Some theBot)))) w' = Done None w'
    /\ exists w'', getMsgTemplate (Chat.id (chat (event ana [] (Some theBot)))) w'
                   = Done (JStr DEFAULT_MSG_TEMPLATE) w''.
Proof.
  refine (C9_bot_left_forgets_chat 42 (event ana [] (Some theBot)) theBot configuredWorld _ _);
    reflexivity.
Defined.


Lemma composeIntroMessage_names_group_witness :
  INTRO_MSG = INTRO_TEXT +:+ "$groupname"
  /\ composeIntroMessage sampleEscape ana (Some "Startup Hub")
     = Some (INTRO_TEXT +:+ sampleEscape "Startup Hub")
  /\ composeIntroMessage sampleEscape ana None = None.
Proof.
  refine (composeIntroMessage_names_group sampleEscape ana "Startup Hub" _).
  reflexivity.
Defined.

Lemma placeholder_at_start_stays_witness :
  exists rest',
    composeMessage sampleEscape (("$" +:+ "firstname") +:+ ", welcome to $groupname!")
      bob (Some "G")
    = Some (("$" +:+ "firstname") +:+ rest').
Proof.
  refine (proj2 (placeholder_at_start_stays sampleEscape bob (Some "G") "firstname"
                   ", welcome to $groupname!" _) _ _).
  - unfold placeholderNames.
    repeat first [apply list_elem_of_here | apply list_elem_of_further].
  - discriminate.
  - discriminate.
Defined.

Lemma change_by_owner_sets_template_witness :
  storage (world_of (changeWelcomeMessageHandler sampleEscape sampleMarked
             (event ana [] None) " Welcome $firstname! " configuredWorld))
    !! getMsgTemplateKey (Chat.id (chat (event ana [] None)))
  = Some (JStr (trim " Welcome $firstname! ")).
Proof.
  refine (proj1 (change_by_owner_sets_template sampleEscape sampleMarked
                   (event ana [] None) " Welcome $firstname! " configuredWorld
                   _ _ sample_text_not_blank));
    reflexivity.
Defined.

Lemma change_outside_group_redirects_witness :
  changeWelcomeMessageHandler sampleEscape sampleMarked (message privateChat ana [] None)
    "Welcome!" emptyWorld
  = Done tt (delivered emptyWorld (Chat.id (chat (message privateChat ana [] None)))
       (sampleMarked "*Add me to a group first!*")).
Proof.
  refine (proj1 (change_outside_group_redirects sampleEscape sampleMarked
                   (message privateChat ana [] None) "Welcome!" emptyWorld _)).
  reflexivity.
Defined.

Lemma added_changed_joined_witness :
  newMemberHandler sampleEscape sampleMarked 42 (message hub ana [bob; dollar] None)
    (runUpdates sampleEscape sampleMarked 42
       [NewChatMembers (message hub ana [theBot] None);
        ChangeWelcomeMessage (message hub ana [] None) " Welcome $firstname! "] emptyWorld)
  = match composeMessage sampleEscape (trim " Welcome $firstname! ") bob (Chat.title hub) with
    | Some welcome =>
        Done tt
          (delivered
             (runUpdates sampleEscape sampleMarked 42
                [NewChatMembers (message hub ana [theBot] None);
                 ChangeWelcomeMessage (message hub ana [] None) " Welcome $firstname! "]
                emptyWorld)
             (Chat.id hub) (sampleMarked welcome))
    | None =>
        Thrown
          (runUpdates sampleEscape sampleMarked 42
             [NewChatMembers (message hub ana [theBot] None);
              ChangeWelcomeMessage (message hub ana [] None) " Welcome $firstname! "]
             emptyWorld)
    end.
Proof.
  refine (added_changed_joined sampleEscape sampleMarked 42 hub ana ana theBot bob
            [] [dollar] [] None None None " Welcome $firstname! " emptyWorld
            hub_is_group _ _ _ _ sample_text_not_blank).
  - discriminate.
  - reflexivity.
  - discriminate.
  - reflexivity.
Defined.

Lemma after_bot_left_witness :
  changeWelcomeMessageHandler sampleEscape sampleMarked (message hub ana [] None)
    "Welcome back"
    (world_of (memberLeftHandler 42 (message hub bob [] (Some theBot)) configuredWorld))
  = Done tt
      (delivered
         (world_of (memberLeftHandler 42 (message hub bob [] (Some theBot)) configuredWorld))
         (Chat.id hub)
         (sampleMarked (composeErrorMessage
            "Only the user who introduced me to this group can change the message!"))).
Proof.
  refine (proj1 (after_bot_left sampleEscape sampleMarked 42 hub bob ana ana theBot bob
                   [] [] [] None None "Welcome back" configuredWorld
                   hub_is_group _ _ _)).
  - reflexivity.
  - discriminate.
  - reflexivity.
Defined.

Lemma other_chats_untouched_witness :
  storage (world_of (dispatch sampleEscape sampleMarked 42
             (ChangeWelcomeMessage (event ana [] None) "Hello $firstname") configuredWorld))
    !! getMsgTemplateKey 7
  = storage configuredWorld !! getMsgTemplateKey 7.
Proof.
  refine (proj1 (other_chats_untouched sampleEscape sampleMarked 42
                   (ChangeWelcomeMessage (event ana [] None) "Hello $firstname")
                   configuredWorld 7 _)).
  discriminate.
Defined.

Lemma thrown_leaves_store_witness :
  sent (world_of (setMsgTemplate (-1001) "Hi $username" configuredWorld))
  = sent configuredWorld
  /\ world_of (setMsgTemplate (-1001) "Hi $username" configuredWorld)
     = world_of (setMsgTemplate (Chat.id (chat (event ana [] None)))
                   (trim " Hi $username") configuredWorld)
     /\ composeMessage sampleEscape (trim " Hi $username") (from (event ana [] None))
          (Chat.title (chat (event ana [] None))) = None.
Proof.
  refine (thrown_leaves_store sampleEscape sampleMarked 42
            (ChangeWelcomeMessage (event ana [] None) " Hi $username") configuredWorld
            (world_of (setMsgTemplate (-1001) "Hi $username" configuredWorld)) _).
  vm_compute. reflexivity.
Defined.

Lemma reachable_never_throws_witness :
  exists w',
    dispatch sampleEscape sampleMarked 42 (NewChatMembers (event ana [bob] None))
      (runUpdates sampleEscape sampleMarked 42
         [NewChatMembers (event ana [theBot] None)] emptyWorld) = Done tt w'.
Proof.
  refine (reachable_never_throws sampleEscape sampleMarked 42
            [NewChatMembers (event ana [theBot] None)]
            (NewChatMembers (event ana [bob] None)) _ _).
  - split; discriminate.
  - intros m [= <-]. discriminate.
Defined.

Lemma stored_template_is_trimmed_witness :
  exists t,
    storage (world_of (changeWelcomeMessageHandler sampleEscape sampleMarked
               (event ana [] None) " Welcome $firstname! " configuredWorld))
      !! getMsgTemplateKey (Chat.id (chat (event ana [] None))) = Some (JStr t)
    /\ t <> ""
    /\ forall u, u ∈ whiteSpace -> startsWith t u = false /\ endsWith t u = false.
Proof.
  refine (stored_template_is_trimmed sampleEscape sampleMarked (event ana [] None)
            " Welcome $firstname! " configuredWorld _ _ sample_text_not_blank);
    reflexivity.
Defined.

(** * Scenarios *)

(** The bot is added to the group by Ana: introduction sent, owner kept. *)
Example scenario_bot_added :
  storage configuredWorld !! "-1001_owner_id" = Some (JNum 1)
  /\ msgTemplates configuredWorld = ∅
  /\ (intro ← composeMessage sampleEscape INTRO_MSG ana (Some "Startup Hub");
      Some [(-1001, intro)]) = Some (sent configuredWorld)
  /\ includes "di group Startup Hub" <$>
       composeMessage sampleEscape INTRO_MSG ana (Some "Startup Hub") = Some true.
Proof. repeat split; vm_compute; reflexivity. Qed.

(** The owner sets a template: stored, mirrored, and confirmed with an
    example composed for the owner. *)
Example scenario_owner_changes_template :
  storage (world_of (changeWelcomeMessageHandler sampleEscape sampleMarked
             (event ana [] None) " Welcome $firstname! " configuredWorld))
    !! "-1001_msg_template" = Some (JStr "Welcome $firstname!")
  /\ msgTemplates (world_of (changeWelcomeMessageHandler sampleEscape sampleMarked
                     (event ana [] None) " Welcome $firstname! " configuredWorld))
       !! (-1001) = Some (JStr "Welcome $firstname!")
  /\ last (sent (world_of (changeWelcomeMessageHandler sampleEscape sampleMarked
                     (event ana [] None) " Welcome $firstname! " configuredWorld)))
     = Some (-1001, NEW_MESSAGE_SET +:+ "Welcome Ana!").
Proof. repeat split; vm_compute; reflexivity. Qed.

(** Two members join a chat without a stored template: one welcome, for
    the first of them. *)
Example scenario_members_join :
  (welcome ← composeMessage sampleEscape DEFAULT_MSG_TEMPLATE bob (Some "Startup Hub");
   Some (sent configuredWorld ++ [(-1001, welcome)]))
  = Some (sent (world_of (newMemberHandler sampleEscape sampleMarked 42
                  (event ana [bob; dollar] None) configuredWorld)))
  /\ includes "Bob (@bob) di Startup Hub" <$>
       composeMessage sampleEscape DEFAULT_MSG_TEMPLATE bob (Some "Startup Hub") = Some true
  /\ storage (world_of (newMemberHandler sampleEscape sampleMarked 42
                 (event ana [bob; dollar] None) configuredWorld))
     = storage configuredWorld.
Proof. repeat split; vm_compute; reflexivity. Qed.

(** An event without new members makes the handler throw. *)
Example scenario_no_member :
  newMemberHandler sampleEscape sampleMarked 42 (event ana [] None) configuredWorld
  = Thrown configuredWorld.
Proof. reflexivity. Qed.

(** Ana has no username.  Her change command with a [$username] behind a
    space stores the template and then throws, without a confirmation;
    when she joins a chat with that template, the handler throws and she
    gets no welcome; Bob, who has a username, gets his. *)
Example scenario_member_without_username :
  changeWelcomeMessageHandler sampleEscape sampleMarked (event ana [] None)
    "Hi $username" configuredWorld
  = Thrown (world_of (setMsgTemplate (-1001) "Hi $username" configuredWorld))
  /\ newMemberHandler sampleEscape sampleMarked 42 (event bob [ana] None)
       (world_of (setMsgTemplate (-1001) "Hi $username" configuredWorld))
     = Thrown (world_of (setMsgTemplate (-1001) "Hi $username" configuredWorld))
  /\ newMemberHandler sampleEscape sampleMarked 42 (event ana [bob] None)
       (world_of (setMsgTemplate (-1001) "Hi $username" configuredWorld))
     = Done tt (delivered (world_of (setMsgTemplate (-1001) "Hi $username" configuredWorld))
                  (-1001) "Hi @bob").
Proof. repeat split; vm_compute; reflexivity. Qed.
